(** * Biometric attendance: fingerprint matcher and attendance sessions

    A shallow embedding of
    - [public/fingerprint/app.js]: the block-wise SSIM scorer
      ([computeSSIM], [getBlockStats]) and the best-match loop of
      [sdk.onSamplesAcquired];
    - [markAttendance] (the exported helper), the scanner [handler] of
      [src/pages/AttendancePage.tsx], and [markAttendanceForEmployeeId]
      with the scanner's [onMessage] of [src/pages/ShiftsManagement.tsx]:
      the attendance session logic over the [attendances] table.

    JavaScript numbers are modelled by exact rationals extended with the
    IEEE special values NaN and the two infinities; binary64 rounding,
    overflow and signed zeros are not modelled, except where hours are
    computed from a difference in milliseconds and cut by [toFixed(2)]:
    there the quotient is rounded to binary64 first.  Timestamps are integer
    milliseconds since the epoch.  The storage client and the date
    library are modelled by what the code relies on: a query is a filter
    of the table, [maybeSingle] answers with the only row, with [null], or
    with [null] and an error for several rows, and [diff(_, "minute")]
    counts whole minutes. *)

From Stdlib Require Import List ZArith QArith Qabs Qcanon Qround Bool Lia Lqa String.
Import ListNotations.

Local Open Scope Z_scope.

(** ** JavaScript numbers *)

Module JS.

Inductive num : Type :=
| NaN : num
| Inf (neg : bool) : num
| Num (q : Qc) : num.

Definition ofZ (z : Z) : num := Num (Q2Qc (inject_Z z)).
Definition ofNat (n : nat) : num := ofZ (Z.of_nat n).

Definition qneg (q : Qc) : bool :=
  match Qccompare q (Q2Qc 0) with Lt => true | _ => false end.
Definition qzero (q : Qc) : bool :=
  match Qccompare q (Q2Qc 0) with Eq => true | _ => false end.

Definition opp (a : num) : num :=
  match a with
  | NaN => NaN
  | Inf s => Inf (negb s)
  | Num q => Num (Qcopp q)
  end.

Definition add (a b : num) : num :=
  match a, b with
  | NaN, _ | _, NaN => NaN
  | Inf s, Inf t => if Bool.eqb s t then Inf s else NaN
  | Inf s, Num _ => Inf s
  | Num _, Inf t => Inf t
  | Num p, Num q => Num (Qcplus p q)
  end.

Definition sub (a b : num) : num := add a (opp b).

Definition mul (a b : num) : num :=
  match a, b with
  | NaN, _ | _, NaN => NaN
  | Inf s, Inf t => Inf (xorb s t)
  | Inf s, Num q => if qzero q then NaN else Inf (xorb s (qneg q))
  | Num p, Inf t => if qzero p then NaN else Inf (xorb (qneg p) t)
  | Num p, Num q => Num (Qcmult p q)
  end.

Definition div (a b : num) : num :=
  match a, b with
  | NaN, _ | _, NaN => NaN
  | Inf _, Inf _ => NaN
  | Inf s, Num q => Inf (xorb s (qneg q))
  | Num _, Inf _ => Num (Q2Qc 0)
  | Num p, Num q =>
      if qzero q then (if qzero p then NaN else Inf (qneg p))
      else Num (Qcdiv p q)
  end.

(** [a > b]: false as soon as one side is NaN. *)
Definition gt (a b : num) : bool :=
  match a, b with
  | NaN, _ | _, NaN => false
  | Inf s, Inf t => negb s && t
  | Inf s, Num _ => negb s
  | Num _, Inf t => t
  | Num p, Num q => match Qccompare p q with Gt => true | _ => false end
  end.

(** [a >= b]: false as soon as one side is NaN. *)
Definition ge (a b : num) : bool :=
  match a, b with
  | NaN, _ | _, NaN => false
  | Inf s, Inf t => negb s || t
  | Inf s, Num _ => negb s
  | Num _, Inf t => t
  | Num p, Num q => match Qccompare p q with Lt => false | _ => true end
  end.

End JS.

(** ** Image similarity scorer ([computeSSIM]) *)

(** [ImageData]: [data] is the RGBA byte buffer, four entries per pixel. *)
Record ImageData : Type := mkImageData {
  width : nat;
  height : nat;
  data : list Z
}.

(** [data[idx]]: reading past the end of the buffer yields [undefined],
    which every arithmetic operation turns into NaN. *)
Definition pixel (d : list Z) (idx : nat) : JS.num :=
  match nth_error d idx with
  | Some v => JS.ofZ v
  | None => JS.NaN
  end.

Definition windowSize : nat := 8.
Definition C1 : JS.num := JS.Num (Q2Qc (65025 # 10000)).
Definition C2 : JS.num := JS.Num (Q2Qc (585225 # 10000)).

(** The coordinates visited by
    [for (j = y; j < y + windowSize && j < h; j++)
       for (i = x; i < x + windowSize && i < w; i++)], in loop order. *)
Definition span (start bound : nat) : list nat :=
  seq start (Nat.min (start + windowSize) bound - start).

Definition blockCoords (w h x y : nat) : list (nat * nat) :=
  flat_map (fun j => map (fun i => (i, j)) (span x w)) (span y h).

Section Scorer.

Variables imgData1 imgData2 : ImageData.

Local Abbreviation w := (width imgData1).
Local Abbreviation h := (height imgData1).
Local Abbreviation data1 := (data imgData1).
Local Abbreviation data2 := (data imgData2).

(** [idx = (j * w + i) * 4] *)
Definition idxOf (ij : nat * nat) : nat := ((snd ij * w + fst ij) * 4)%nat.

(** Body of the first pair of loops: [mu1 += I1; mu2 += I2; N++]. *)
Definition sumStep (acc : JS.num * JS.num * nat) (ij : nat * nat)
    : JS.num * JS.num * nat :=
  let '(mu1, mu2, N) := acc in
  let I1 := pixel data1 (idxOf ij) in
  let I2 := pixel data2 (idxOf ij) in
  (JS.add mu1 I1, JS.add mu2 I2, S N).

(** Body of the second pair of loops, around the means [mu1], [mu2]. *)
Definition centredStep (mu1 mu2 : JS.num) (acc : JS.num * JS.num * JS.num)
    (ij : nat * nat) : JS.num * JS.num * JS.num :=
  let '(sigma1Sq, sigma2Sq, sigma12) := acc in
  let I1 := pixel data1 (idxOf ij) in
  let I2 := pixel data2 (idxOf ij) in
  let d1 := JS.sub I1 mu1 in
  let d2 := JS.sub I2 mu2 in
  (JS.add sigma1Sq (JS.mul d1 d1),
   JS.add sigma2Sq (JS.mul d2 d2),
   JS.add sigma12 (JS.mul d1 d2)).

Definition getBlockStats (x y : nat) : JS.num :=
  let cs := blockCoords w h x y in
  let '(mu1, mu2, N) := fold_left sumStep cs (JS.ofZ 0, JS.ofZ 0, 0%nat) in
  let mu1 := JS.div mu1 (JS.ofNat N) in
  let mu2 := JS.div mu2 (JS.ofNat N) in
  let '(sigma1Sq, sigma2Sq, sigma12) :=
    fold_left (centredStep mu1 mu2) cs (JS.ofZ 0, JS.ofZ 0, JS.ofZ 0) in
  let sigma1Sq := JS.div sigma1Sq (JS.sub (JS.ofNat N) (JS.ofZ 1)) in
  let sigma2Sq := JS.div sigma2Sq (JS.sub (JS.ofNat N) (JS.ofZ 1)) in
  let sigma12 := JS.div sigma12 (JS.sub (JS.ofNat N) (JS.ofZ 1)) in
  let numerator :=
    JS.mul (JS.add (JS.mul (JS.mul (JS.ofZ 2) mu1) mu2) C1)
           (JS.add (JS.mul (JS.ofZ 2) sigma12) C2) in
  let denominator :=
    JS.mul (JS.add (JS.add (JS.mul mu1 mu1) (JS.mul mu2 mu2)) C1)
           (JS.add (JS.add sigma1Sq sigma2Sq) C2) in
  JS.div numerator denominator.

(** Block origins [0, windowSize, 2 * windowSize, ...] below [bound]. *)
Definition origins (bound : nat) : list nat :=
  map (fun k => (k * windowSize)%nat)
      (seq 0 ((bound + windowSize - 1) / windowSize)).

(** The blocks in the order of
    [for (y = 0; y < h; y += windowSize) for (x = 0; x < w; x += windowSize)]. *)
Definition blocks : list (nat * nat) :=
  flat_map (fun y => map (fun x => (x, y)) (origins w)) (origins h).

(** Body of the block loop: [total += getBlockStats(x, y); count++]. *)
Definition blockStep (acc : JS.num * nat) (xy : nat * nat) : JS.num * nat :=
  let '(total, count) := acc in
  (JS.add total (getBlockStats (fst xy) (snd xy)), S count).

Definition computeSSIM : JS.num :=
  let '(total, count) := fold_left blockStep blocks (JS.ofZ 0, 0%nat) in
  JS.div total (JS.ofNat count).

End Scorer.

(** ** Candidate matcher ([sdk.onSamplesAcquired]) *)

Record Employee : Type := mkEmployee {
  emp_id : string;
  first_name : string;
  last_name : string;
  biometric_data : ImageData   (* the enrolled template, decoded *)
}.

(** [mode = params.get("mode") || "attendance"]. *)
Inductive Mode : Type :=
| attendance
| register
| other_mode (name : string).

(** Messages posted to the parent window. *)
Inductive Message : Type :=
| fingerprint_attendance_match (employee : Employee) (image : ImageData)
| fingerprint_attendance_no_match (image : ImageData)
| fingerprint_register (image : ImageData).

Definition compareFingerprintSSIM (a b : ImageData) : JS.num := computeSSIM a b.

Definition THRESHOLD : JS.num := JS.Num (Q2Qc (36 # 100)).

(** One iteration of [for (const emp of employeeList)]:
    [if (!bestMatch || score > bestMatch.score) bestMatch = { emp, score }]. *)
Definition bestStep (capture : ImageData)
    (bestMatch : option (Employee * JS.num)) (emp : Employee)
    : option (Employee * JS.num) :=
  let score := compareFingerprintSSIM capture (biometric_data emp) in
  match bestMatch with
  | None => Some (emp, score)
  | Some (_, best) => if JS.gt score best then Some (emp, score) else bestMatch
  end.

Definition bestMatchOf (capture : ImageData) (employeeList : list Employee)
    : option (Employee * JS.num) :=
  fold_left (bestStep capture) employeeList None.

(** The message posted for one acquired sample, [None] when the handler
    posts nothing. *)
Definition onSamplesAcquired (mode : Mode) (employeeList : list Employee)
    (capture : ImageData) : option Message :=
  match mode, employeeList with
  | attendance, _ :: _ =>
      match bestMatchOf capture employeeList with
      | Some (emp, score) =>
          if JS.ge score THRESHOLD
          then Some (fingerprint_attendance_match emp capture)
          else Some (fingerprint_attendance_no_match capture)
      | None => Some (fingerprint_attendance_no_match capture)
      end
  | register, _ => Some (fingerprint_register capture)
  | _, _ => None
  end.

(** ** Attendance sessions: the [attendances] table *)

(** The table is the storage seen by one request at a time: the queries,
    inserts and updates of a request succeed and run without another
    request in between.  Rows carry the columns that the session logic
    reads or writes. *)

Inductive Status : Type := checked_in | checked_out | manual_checkin.

Record Attendance : Type := mkAttendance {
  id : nat;
  employee_id : string;
  check_in : Z;                 (* ms since the epoch *)
  check_out : option Z;         (* [None] is SQL null *)
  total_hours : option Qc;
  status : Status
}.

Definition Table : Type := list Attendance.

Definition is_null {A} (o : option A) : bool :=
  match o with None => true | Some _ => false end.

(** [.eq("employee_id", e).is("check_out", null)] *)
Definition openRows (e : string) (t : Table) : Table :=
  filter (fun r => String.eqb (employee_id r) e && is_null (check_out r)) t.

(** [.maybeSingle()]: the row when the result has exactly one, [null] when
    it has none, and [null] together with an error when it has several. *)
Definition maybeSingle (rows : Table) : option Attendance * bool :=
  match rows with
  | [] => (None, false)
  | [r] => (Some r, false)
  | _ => (None, true)
  end.

(** [.order("check_in", { ascending: false }).limit(1)]: the row with the
    greatest [check_in]; among equal ones the earliest inserted. *)
Definition latestFirst (rows : Table) : Table :=
  match rows with
  | [] => []
  | r :: rest =>
      [fold_left (fun best x => if check_in best <? check_in x then x else best)
                 rest r]
  end.

(** The key the storage gives to an inserted row. *)
Definition freshId (t : Table) : nat := S (fold_right Nat.max 0%nat (map id t)).

(** [.insert({ employee_id, check_in: now, status: "checked_in" })] *)
Definition insertCheckIn (e : string) (now : Z) (t : Table) : Table :=
  t ++ [mkAttendance (freshId t) e now None None checked_in].

(** [.update({ check_out, status: "checked_out", total_hours }).eq("id", i)] *)
Definition updateCheckOut (i : nat) (out : Z) (total : Qc) (t : Table) : Table :=
  map (fun r =>
         if Nat.eqb (id r) i
         then mkAttendance (id r) (employee_id r) (check_in r)
                           (Some out) (Some total) checked_out
         else r) t.

(** [a.diff(b, "minute")] of dayjs: whole minutes, truncated towards zero. *)
Definition diffMinutes (a b : Z) : Z := Z.quot (a - b) 60000.

(** [x.toFixed(2)] read back as a number: [x] rounded to two decimals,
    halves away from zero. *)
Definition toFixed2 (x : Qc) : Qc :=
  let n := Qfloor (Qabs (this x) * 100 + (1 # 2))%Q in
  Q2Qc ((if JS.qneg x then (- n) else n) # 100).

Definition hoursOfMinutes (m : Z) : Qc :=
  toFixed2 (Qcdiv (Q2Qc (inject_Z m)) (Q2Qc 60)).

(** *** Binary64 *)

(** The integer nearest to [q], a half going to the even neighbour. *)
Definition roundHalfEven (q : Q) : Z :=
  let f := Qfloor q in
  match Qcompare (q - inject_Z f) (1 # 2) with
  | Lt => f
  | Gt => f + 1
  | Eq => if Z.even f then f else f + 1
  end.

(** [floor (log2 q)] for a positive [q]. *)
Definition ilog2 (q : Q) : Z :=
  let k := Z.log2 (Qnum q) - Z.log2 (Zpos (Qden q)) in
  if Qle_bool (Qpower 2 k) q then k else k - 1.

(** A positive [q] rounded to 53 significant bits. *)
Definition nearest53 (q : Q) : Q :=
  let e := ilog2 q - 52 in
  (inject_Z (roundHalfEven (q / Qpower 2 e)) * Qpower 2 e)%Q.

(** The binary64 number nearest to [q], ties to even.  The exponent is
    not bounded: the differences and quotients of timestamps rounded here
    lie far inside the normal range. *)
Definition binary64 (q : Q) : Q :=
  match Qcompare q 0 with
  | Eq => 0%Q
  | Lt => (- nearest53 (- q))%Q
  | Gt => nearest53 q
  end.

(** [+((ms / 3600000).toFixed(2))], [ms] being a difference of two
    [getTime()] values: the subtraction and the division each round to
    binary64, and [toFixed] cuts the exact value of the quotient (for
    valid dates it is far below 10^21, where [toFixed] would change to
    the exponent form). *)
Definition totalHoursOfMs (ms : Z) : Qc :=
  toFixed2 (Q2Qc (binary64 (binary64 (inject_Z ms) / 3600000))).

(** *** [markAttendance(employeeId, type)] *)

Inductive AttendanceType : Type := TCheckIn | TCheckOut.

Inductive Result : Type :=
| Returned (b : bool)
| Thrown (message : string).

Definition AlreadyCheckedIn : Result := Thrown "Already checked in".
Definition NoActiveSession : Result := Thrown "No active check-in session".

Definition markAttendance (employeeId : string) (type : AttendanceType)
    (now : Z) (t : Table) : Result * Table :=
  match type with
  | TCheckIn =>
      match fst (maybeSingle (openRows employeeId t)) with
      | Some _ => (AlreadyCheckedIn, t)
      | None => (Returned true, insertCheckIn employeeId now t)
      end
  | TCheckOut =>
      match fst (maybeSingle (latestFirst (openRows employeeId t))) with
      | None => (NoActiveSession, t)
      | Some lastAttendance =>
          let totalHours := hoursOfMinutes (diffMinutes now (check_in lastAttendance)) in
          (Returned true, updateCheckOut (id lastAttendance) now totalHours t)
      end
  end.

(** *** The scanner [handler] of the attendance page *)

Definition handler (mode : option AttendanceType) (scannerVisible : bool)
    (msg : Message) (now : Z) (t : Table) : option string * Table :=
  match msg, mode, scannerVisible with
  | fingerprint_register _, _, _ => (None, t)
  | _, None, _ | _, _, false => (None, t)
  | fingerprint_attendance_no_match _, Some _, true => (Some "Not Recognized", t)
  | fingerprint_attendance_match employee _, Some TCheckIn, true =>
      match fst (maybeSingle (openRows (emp_id employee) t)) with
      | Some _ => (Some "Already Checked In", t)
      | None => (Some "Checked In", insertCheckIn (emp_id employee) now t)
      end
  | fingerprint_attendance_match employee _, Some TCheckOut, true =>
      match fst (maybeSingle (latestFirst (openRows (emp_id employee) t))) with
      | None => (Some "No Active Check-In", t)
      | Some last =>
          let total := hoursOfMinutes (diffMinutes now (check_in last)) in
          (Some "Checked Out", updateCheckOut (id last) now total t)
      end
  end%string.

(** *** [markAttendanceForEmployeeId]: the day-scoped toggle *)

Definition msPerDay : Z := 86400000.

Section LocalTime.

(** Offset of the local time zone from UTC, in milliseconds. *)
Variable tz : Z.

(** The calendar day of an instant, in local time. *)
Definition dayKey (t : Z) : Z := (t + tz) / msPerDay.

(** [s.setHours(0, 0, 0, 0)] *)
Definition startOfDayIso (d : Z) : Z := d - (d + tz) mod msPerDay.
(** [e.setHours(23, 59, 59, 999)] *)
Definition endOfDayIso (d : Z) : Z := startOfDayIso d + (msPerDay - 1).

(** [.eq("employee_id", e).gte("check_in", start).lt("check_in", end)] *)
Definition todayRows (e : string) (now : Z) (t : Table) : Table :=
  filter (fun r => String.eqb (employee_id r) e
                   && (startOfDayIso now <=? check_in r)
                   && (check_in r <? endOfDayIso now)) t.

Definition markAttendanceForEmployeeId (employeeId : string) (now : Z)
    (t : Table) : string * Table :=
  match maybeSingle (todayRows employeeId now t) with
  | (_, true) => ("Error", t)
  | (None, false) => ("Checked In", insertCheckIn employeeId now t)
  | (Some todayRec, false) =>
      match check_out todayRec with
      | None =>
          let totalHours := totalHoursOfMs (now - check_in todayRec) in
          ("Checked Out", updateCheckOut (id todayRec) now totalHours t)
      | Some _ => ("Already checked out", t)
      end
  end%string.

(** *** The scanner of the employee portal *)




End LocalTime.

(** *** Runs of the session manager *)

(** A request reaches the table through [markAttendance] or through the
    page's [handler]. *)
Inductive Op : Type :=
| Mark (employeeId : string) (type : AttendanceType) (now : Z)
| Scan (mode : option AttendanceType) (scannerVisible : bool)
       (msg : Message) (now : Z).

Definition step (t : Table) (op : Op) : Table :=
  match op with
  | Mark e ty now => snd (markAttendance e ty now t)
  | Scan mode visible msg now => snd (handler mode visible msg now t)
  end.

Definition run (ops : list Op) : Table := fold_left step ops [].

(** A session is open while its [check_out] is null. *)
Definition isOpen (r : Attendance) : Prop := check_out r = None.

Definition openOn (tz : Z) (e : string) (day : Z) (t : Table) : Table :=
  filter (fun r => String.eqb (employee_id r) e && is_null (check_out r)
                   && (dayKey tz (check_in r) =? day)) t.

(** Invariant I1: at most one open session per person and day. *)
Definition I1 (tz : Z) (t : Table) : Prop :=
  forall e day, (List.length (openOn tz e day t) <= 1)%nat.


(** The form the code maintains: at most one open session per person. *)
Definition singleOpen (t : Table) : Prop :=
  forall e, (List.length (openRows e t) <= 1)%nat.

(** ** Auxiliary quantities for the scorer *)

(** The pixel at an offset inside the buffer, as a rational. *)
Definition pixq (d : list Z) (idx : nat) : Qc :=
  match nth_error d idx with
  | Some v => Q2Qc (inject_Z v)
  | None => Q2Qc 0
  end.

Definition natQ (n : nat) : Qc := Q2Qc (inject_Z (Z.of_nat n)).

Definition sumQ (l : list Qc) : Qc := fold_right Qcplus (Q2Qc 0) l.

(** Squared deviation of a sample [p] from the mean [m]. *)
Definition sqdev (m p : Qc) : Qc := ((p - m) * (p - m))%Qc.

(** Every offset read for the coordinates [cs] lies inside the buffer. *)
Definition within (a : ImageData) (cs : list (nat * nat)) : Prop :=
  forall ij, In ij cs -> (idxOf a ij < List.length (data a))%nat.

(** A non-empty image with a complete buffer and no single-pixel block. *)
Definition regularImage (a : ImageData) : Prop :=
  (1 <= width a)%nat /\ (1 <= height a)%nat /\
  (4 * width a * height a <= List.length (data a))%nat /\
  ((width a mod 8 <> 1)%nat \/ (height a mod 8 <> 1)%nat).

(** ** Sample images and rosters *)

Definition img1x1 (v : Z) : ImageData := mkImageData 1 1 [v; v; v; 255].

Definition img2x2 : ImageData :=
  mkImageData 2 2 [10;10;10;255; 20;20;20;255; 30;30;30;255; 200;200;200;255].

(** The same sixteen bytes declared as a 4x1 image. *)
Definition img4x1 : ImageData := mkImageData 4 1 (data img2x2).

Definition img2x2_dark : ImageData :=
  mkImageData 2 2 [200;200;200;255; 30;30;30;255; 20;20;20;255; 10;10;10;255].

Definition img9x9 : ImageData :=
  mkImageData 9 9 (flat_map (fun k => [k; k; k; 255]) (map Z.of_nat (seq 0 81))).

Definition emp_small : Employee := mkEmployee "e0" "Ann" "A" (img1x1 7).
Definition emp_same : Employee := mkEmployee "e1" "Bob" "B" img2x2.
Definition emp_twin : Employee := mkEmployee "e2" "Cy" "C" img2x2.
Definition emp_dark : Employee := mkEmployee "e3" "Di" "D" img2x2_dark.

(** ** Sample tables *)

(** One session, opened at midnight UTC and still open. *)
Definition ex_open : Table := run [Mark "a" TCheckIn 0].


(** ** Statements of the specification that the code departs from *)

(** C2, as the specification states it: rejection exactly when an open
    session exists for the person on the day of the request. *)
Definition checkIn_scoped_by_day (tz : Z) (e : string) (now : Z) (t : Table) : Prop :=
  fst (markAttendance e TCheckIn now t) = AlreadyCheckedIn
  <-> openOn tz e (dayKey tz now) t <> [].


(** One person, a session open on each of two days. *)
Definition ex_two_days : Table :=
  [mkAttendance 1 "a" 0 None None checked_in;
   mkAttendance 2 "a" msPerDay None None checked_in].

(** The total of the specification: the difference in hours, as an exact
    number, rounded to two decimals. *)
Definition hoursOfMillis (ms : Z) : Qc :=
  toFixed2 (Qcdiv (Q2Qc (inject_Z ms)) (Q2Qc 3600000)).

(** C3, as the specification states it: the closed session carries the
    exact difference in hours, rounded to two decimals. *)
Definition totalHours_exact (e : string) (t1 t2 : Z) : Prop :=
  map total_hours (run [Mark e TCheckIn t1; Mark e TCheckOut t2])
  = [Some (hoursOfMillis (t2 - t1))].


(** The rejection the specification names for a check-out after closure. *)
Definition AlreadyCheckedOut : Result := Thrown "Already checked out".

(** C5, as the specification states it. *)
Definition third_checkOut_AlreadyCheckedOut (e : string) (t1 t2 t3 : Z) : Prop :=
  fst (markAttendance e TCheckOut t3
         (run [Mark e TCheckIn t1; Mark e TCheckOut t2])) = AlreadyCheckedOut.

Definition scoreOf (capture : ImageData) (emp : Employee) : JS.num :=
  compareFingerprintSSIM capture (biometric_data emp).

(** C6, at the empty roster, as the specification states it. *)
Definition empty_roster_no_match (capture : ImageData) : Prop :=
  onSamplesAcquired attendance [] capture
  = Some (fingerprint_attendance_no_match capture).

(** C7, as the specification states it: no numeric value for mismatched
    images. *)
Definition mismatch_not_numeric (a b : ImageData) : Prop :=
  width a <> width b \/ height a <> height b ->
  forall q, computeSSIM a b <> JS.Num q.

(** ** Further definitions *)

(** Exchange of the two images in the running sums. *)
Definition swap12 {A B} (t : A * A * B) : A * A * B :=
  let '(x, y, n) := t in (y, x, n).

(** Two buffers with the same byte at every offset that is a multiple of
    four (the first channel of each pixel). *)
Definition sameRed (d d' : list Z) : Prop :=
  forall k, nth_error d (4 * k) = nth_error d' (4 * k).

(** [img2x2] with other green, blue and alpha bytes. *)
Definition img2x2_tinted : ImageData :=
  mkImageData 2 2 [10;0;99;1; 20;7;7;2; 30;250;3;3; 200;1;2;4].

(** [handleManualEntry] of the attendance page, for the text typed in the
    field; [trim] stands for [String.prototype.trim]. *)
Definition handleManualEntry (trim : string -> string) (employeeId : string)
    (now : Z) (t : Table) : string * Table :=
  if String.eqb (trim employeeId) ""%string
  then ("Missing"%string, t)
  else ("Manual Entry"%string,
        t ++ [mkAttendance (freshId t) employeeId now None None manual_checkin]).

(** The row a successful check-out leaves in place of [r]. *)
Definition closedAt (now : Z) (r : Attendance) : Attendance :=
  mkAttendance (id r) (employee_id r) (check_in r) (Some now)
               (Some (hoursOfMinutes (diffMinutes now (check_in r)))) checked_out.

(** Two persons, one open session each. *)
Definition ex_two : Table :=
  run [Mark "a" TCheckIn 0; Mark "b" TCheckIn 1000].

(** *** Alerts of the attendance page *)

(** [.gte("check_in", todayStart).lte("check_in", todayEnd)], the bounds
    being [dayjs().startOf("day")] and [dayjs().endOf("day")]. *)
Definition checkedInToday (tz now : Z) (t : Table) : Table :=
  filter (fun r => (startOfDayIso tz now <=? check_in r)
                   && (check_in r <=? endOfDayIso tz now)) t.

(** [ids.includes(x)], also [new Set(ids).has(x)]. *)
Definition includes (ids : list string) (x : string) : bool :=
  existsb (String.eqb x) ids.

Definition loadMissedAlerts (tz : Z) (employees : list Employee) (now : Z)
    (t : Table) : list Employee :=
  let attendedIds := map employee_id (checkedInToday tz now t) in
  filter (fun emp => negb (includes attendedIds (emp_id emp))) employees.

(** The two lists of the "Show Alerts" button: missed check-ins and missed
    check-outs. *)
Definition showAlerts (tz : Z) (allEmployees : list Employee) (now : Z)
    (t : Table) : list Employee * list Employee :=
  let checkIns := checkedInToday tz now t in
  let checkedInIds := map employee_id checkIns in
  let notCheckedIn :=
    filter (fun e => negb (includes checkedInIds (emp_id e))) allEmployees in
  let notCheckedOut :=
    map employee_id (filter (fun r => is_null (check_out r)) checkIns) in
  let notCheckedOutEmployees :=
    filter (fun e => includes notCheckedOut (emp_id e)) allEmployees in
  (notCheckedIn, notCheckedOutEmployees).

(** *** Runs of the day-scoped toggle *)

Definition toggleRun (tz : Z) (scans : list (string * Z)) : Table :=
  fold_left (fun t s => snd (markAttendanceForEmployeeId tz (fst s) (snd s) t))
            scans [].

Definition ex_scans : list (string * Z) :=
  [("a"%string, 1000); ("b"%string, 2000); ("a"%string, 3000); ("a"%string, 4000)].

(** What the toggle's query relies on: at most one row per person in the
    window of any day. *)
Definition onePerDay (tz : Z) (t : Table) : Prop :=
  forall e now, (List.length (todayRows tz e now t) <= 1)%nat.

(** *** Hours shown in the employee portal *)

(** [Math.round(x)]: the nearest integer, halves upwards. *)
Definition mathRound (x : Qc) : Z := Qfloor (this x + (1 # 2))%Q.

(** [Math.round(x * 10) / 10] *)
Definition roundTenth (x : Qc) : Qc :=
  Q2Qc (mathRound (Qcmult x (Q2Qc 10)) # 10).

Definition computeHoursForRecord (record : Attendance) : Qc :=
  match check_out record with
  | None => Q2Qc 0
  | Some out =>
      roundTenth (Qcdiv (Q2Qc (inject_Z (out - check_in record)))
                        (Q2Qc 3600000))
  end.

(** Body of [records.forEach] in [recalcAndSetHours]. *)
Definition hoursStep (todayStart weekAgo : Z) (acc : Qc * Qc) (r : Attendance)
    : Qc * Qc :=
  let '(todayHrs, weekHrs) := acc in
  match check_out r with
  | None => acc
  | Some _ =>
      let hrs := computeHoursForRecord r in
      (if todayStart <=? check_in r then Qcplus todayHrs hrs else todayHrs,
       if weekAgo <=? check_in r then Qcplus weekHrs hrs else weekHrs)
  end.

(** The numbers shown as hours of today and of this week. *)
Definition recalcAndSetHours (tz : Z) (records : Table) (now : Z) : Qc * Qc :=
  let todayStart := startOfDayIso tz now in
  let weekAgo := now - 6 * msPerDay in
  let '(todayHrs, weekHrs) :=
    fold_left (hoursStep todayStart weekAgo) records (Q2Qc 0, Q2Qc 0) in
  (roundTenth todayHrs, roundTenth weekHrs).

(** *** The quick-attendance widget *)

Inductive WidgetStatus : Type := absent | present | completed.

(** [fetchAttendance]: the rows of the day the widget was rendered on. *)
Definition fetchAttendance (tz rendered : Z) (t : Table) : Table :=
  filter (fun r => (startOfDayIso tz rendered <=? check_in r)
                   && (check_in r <? endOfDayIso tz rendered)) t.

Definition getEmployeeStatus (attendanceRecords : Table) (employeeId : string)
    : WidgetStatus :=
  match find (fun r => String.eqb (employee_id r) employeeId) attendanceRecords with
  | None => absent
  | Some record => if is_null (check_out record) then present else completed
  end.

(** The widget's own [markAttendance(employeeId, action)].  [now] is the
    clock at the first [new Date()] of the call; the check-out reads the
    clock once more, [now'], for the [check_out] column. *)
Definition widgetMarkAttendance (tz rendered : Z) (employeeId : string)
    (action : AttendanceType) (now now' : Z) (t : Table) : Table :=
  match action with
  | TCheckIn => insertCheckIn employeeId now t
  | TCheckOut =>
      match latestFirst (todayRows tz employeeId rendered t) with
      | [latest] =>
          let totalHours := totalHoursOfMs (now - check_in latest) in
          updateCheckOut (id latest) now' totalHours t
      | _ => t
      end
  end.

(** Three records: one of the week, one of today, one still open. *)
Definition ex_week : Table :=
  [mkAttendance 1 "a" 350000000 (Some 380000000) None checked_out;
   mkAttendance 2 "a" 692000000 (Some 699000000) None checked_out;
   mkAttendance 3 "a" 699500000 None None checked_in].

(** ** Employee registration form *)

Module Form.

Record EmployeeFormData : Type := mkEmployeeFormData {
  first_name : string;
  last_name : string;
  email : string;
  phone : string;
  address : string;
  position : string;
  department : string;
  salary : string;
  joining_date : string;
  employment_type : string;
  emergency_contact : string;
  emergency_phone : string;
  has_agreed_to_terms : bool;
  biometric_data : string;
  fingerprint_id : string
}.

(** A string is truthy unless it is empty. *)
Definition truthy (s : string) : bool := negb (String.eqb s "").

(** The loop over the required fields, then
    [has_agreed_to_terms && fingerprint_id]. *)
Definition validateForm (formData : EmployeeFormData) : bool :=
  forallb truthy
    [first_name formData; last_name formData; email formData; phone formData;
     position formData; department formData; joining_date formData]
  && has_agreed_to_terms formData && truthy (fingerprint_id formData).

Inductive Toast : Type :=
| ValidationError
| DuplicateFingerprint
| EmployeeRegistered.

(** [.maybeSingle()] on the rows of the [employees] table. *)
Definition maybeSingle (rows : list EmployeeFormData)
    : option EmployeeFormData * bool :=
  match rows with
  | [] => (None, false)
  | [r] => (Some r, false)
  | _ => (None, true)
  end.

(** [.eq("fingerprint_id", f)] *)
Definition byFingerprint (f : string) (employees : list EmployeeFormData)
    : list EmployeeFormData :=
  filter (fun r => String.eqb (fingerprint_id r) f) employees.

Definition handleSubmit (formData : EmployeeFormData)
    (employees : list EmployeeFormData) : Toast * list EmployeeFormData :=
  if negb (validateForm formData) then (ValidationError, employees)
  else
    match fst (maybeSingle (byFingerprint (fingerprint_id formData) employees)) with
    | Some _ => (DuplicateFingerprint, employees)
    | None => (EmployeeRegistered, employees ++ [formData])
    end.

Definition ex_form : EmployeeFormData :=
  mkEmployeeFormData "Ann" "Lee" "ann@x.org" "123" "" "Clerk" "Ops" ""
                     "2024-01-01" "full-time" "" "" true "png" "f00d".

End Form.

(** ** Shift manager *)

(** The click on a day button or on an employee checkbox: the entry is
    removed when [includes] finds it and appended otherwise. *)
Definition toggleMember (x : string) (l : list string) : list string :=
  if includes l x
  then filter (fun d => negb (String.eqb d x)) l
  else l ++ [x].

Record ShiftForm : Type := mkShiftForm {
  name : string;
  start_time : string;
  end_time : string;
  break_duration : Z;
  days_of_week : list string;
  employee_ids : list string
}.

Record Shift : Type := mkShift {
  shift_key : nat;
  shiftData : ShiftForm   (* [employee_ids] is not a column of [shifts] *)
}.

(** The tables [shifts] and [shift_assignments]. *)
Record ShiftStore : Type := mkShiftStore {
  shifts : list Shift;
  shift_assignments : list (nat * string)
}.

Definition freshShiftKey (s : list Shift) : nat :=
  S (fold_right Nat.max 0%nat (map shift_key s)).

(** The columns written by [handleSave]. *)
Definition shiftColumns (form : ShiftForm) : ShiftForm :=
  mkShiftForm (name form) (start_time form) (end_time form)
              (break_duration form) (days_of_week form) [].

(** [handleSave]; [editingId] is falsy when it is [null] or [0]. *)
Definition handleSave (form : ShiftForm) (editingId : option nat)
    (st : ShiftStore) : ShiftStore :=
  if String.eqb (name form) "" || String.eqb (start_time form) ""
     || String.eqb (end_time form) ""
     || Nat.eqb (List.length (days_of_week form)) 0
  then st
  else
    let '(shiftId, shifts') :=
      match editingId with
      | Some (S i) =>
          (S i, map (fun s => if Nat.eqb (shift_key s) (S i)
                              then mkShift (shift_key s) (shiftColumns form)
                              else s) (shifts st))
      | _ =>
          (freshShiftKey (shifts st),
           shifts st ++ [mkShift (freshShiftKey (shifts st)) (shiftColumns form)])
      end in
    mkShiftStore shifts'
      (filter (fun a => negb (Nat.eqb (fst a) shiftId)) (shift_assignments st)
       ++ map (fun eid => (shiftId, eid)) (employee_ids form)).

(** [handleDelete], once confirmed. *)
Definition handleDelete (i : nat) (st : ShiftStore) : ShiftStore :=
  mkShiftStore
    (filter (fun s => negb (Nat.eqb (shift_key s) i)) (shifts st))
    (filter (fun a => negb (Nat.eqb (fst a) i)) (shift_assignments st)).

(** The key of the shift that [handleSave] writes. *)
Definition savedKey (editingId : option nat) (st : ShiftStore) : nat :=
  match editingId with
  | Some (S i) => S i
  | _ => freshShiftKey (shifts st)
  end.

(** The employees assigned to a shift, in table order. *)
Definition assignedTo (i : nat) (st : ShiftStore) : list string :=
  map snd (filter (fun a => Nat.eqb (fst a) i) (shift_assignments st)).

Definition ex_shiftForm : ShiftForm :=
  mkShiftForm "Early" "06:00" "14:00" 30 ["Mon"%string; "Tue"%string]
              ["e1"%string; "e2"%string].

Definition ex_store : ShiftStore :=
  mkShiftStore [mkShift 1 (shiftColumns ex_shiftForm)]
               [(1%nat, "e9"%string); (2%nat, "e1"%string)].

(** * Properties of the attendance sessions *)




Lemma openRows_app e a b : openRows e (a ++ b) = openRows e a ++ openRows e b.
Proof. apply filter_app. Qed.

Lemma openRows_insert_same e now t :
  openRows e (insertCheckIn e now t)
  = openRows e t ++ [mkAttendance (freshId t) e now None None checked_in].
Proof.
  unfold insertCheckIn. rewrite openRows_app. f_equal.
  unfold openRows; simpl. now rewrite String.eqb_refl.
Qed.










(** Keys already in the table lie below the next fresh key. *)
Lemma id_lt_freshId t r : In r t -> (id r < freshId t)%nat.
Proof.
  unfold freshId. induction t as [|a t IH]; simpl; [tauto|].
  intros [->|Hin]; [lia|]. specialize (IH Hin). lia.
Qed.

Lemma updateCheckOut_absent i out total t :
  (forall r, In r t -> id r <> i) -> updateCheckOut i out total t = t.
Proof.
  intros H. unfold updateCheckOut.
  rewrite <- (map_id t) at 2. apply map_ext_in.
  intros r Hr. destruct (Nat.eqb_spec (id r) i) as [Heq|_]; [|reflexivity].
  now apply H in Hr.
Qed.

Lemma updateCheckOut_fresh e t1 out total t :
  updateCheckOut (freshId t) out total (insertCheckIn e t1 t)
  = t ++ [mkAttendance (freshId t) e t1 (Some out) (Some total) checked_out].
Proof.
  unfold insertCheckIn, updateCheckOut. rewrite map_app.
  fold (updateCheckOut (freshId t) out total t).
  rewrite updateCheckOut_absent.
  - simpl. now rewrite Nat.eqb_refl.
  - intros r Hr Heq. apply id_lt_freshId in Hr. lia.
Qed.

Lemma openRows_closed_last e t r :
  openRows e t = [] -> check_out r <> None -> openRows e (t ++ [r]) = [].
Proof.
  intros H Hr. rewrite openRows_app, H. unfold openRows; simpl.
  destruct (check_out r); [|congruence].
  now rewrite andb_false_r.
Qed.


Lemma In_openRows e t r :
  In r (openRows e t) <-> In r t /\ employee_id r = e /\ isOpen r.
Proof.
  unfold openRows, isOpen. rewrite filter_In, andb_true_iff, String.eqb_eq.
  destruct (check_out r); simpl; intuition congruence.
Qed.

Lemma startOfDayIso_dayKey tz d :
  startOfDayIso tz d = msPerDay * dayKey tz d - tz.
Proof.
  unfold startOfDayIso, dayKey, msPerDay.
  pose proof (Z.div_mod (d + tz) 86400000 ltac:(lia)). lia.
Qed.

Lemma todayRows_same_day tz e a b t :
  dayKey tz a = dayKey tz b -> todayRows tz e a t = todayRows tz e b t.
Proof.
  intros H. unfold todayRows, endOfDayIso.
  now rewrite !startOfDayIso_dayKey, H.
Qed.

Lemma todayRows_app tz e now a b :
  todayRows tz e now (a ++ b) = todayRows tz e now a ++ todayRows tz e now b.
Proof. apply filter_app. Qed.

Lemma todayRows_own tz e now r :
  employee_id r = e -> check_in r = now -> now < endOfDayIso tz now ->
  todayRows tz e now [r] = [r].
Proof.
  intros He Hc Hlt. unfold todayRows; simpl. rewrite He, Hc, String.eqb_refl.
  assert (Hs : startOfDayIso tz now <= now).
  { unfold startOfDayIso, msPerDay.
    pose proof (Z.mod_pos_bound (now + tz) 86400000 ltac:(lia)). lia. }
  apply Z.leb_le in Hs. apply Z.ltb_lt in Hlt. now rewrite Hs, Hlt.
Qed.

Lemma this_div_60 m :
  (this (Qcdiv (Q2Qc (inject_Z m)) (Q2Qc 60)) == inject_Z m / 60)%Q.
Proof.
  unfold Qcdiv, Qcmult, Qcinv, Q2Qc. cbn [this]. rewrite !Qred_correct. reflexivity.
Qed.

(** For a non-negative number of minutes [m] the stored value is
    [floor ((10 m + 3) / 6)] hundredths of an hour; [m / 60] never lies
    half-way between two hundredths. *)
Lemma hoursOfMinutes_hundredths m :
  0 <= m -> hoursOfMinutes m = Q2Qc (((10 * m + 3) / 6) # 100).
Proof.
  intros Hm. unfold hoursOfMinutes, toFixed2.
  assert (Hq : (0 <= inject_Z m / 60)%Q).
  { apply Qle_shift_div_l; [reflexivity|]. rewrite Qmult_0_l.
    unfold Qle; simpl. lia. }
  assert (Hneg : JS.qneg (Qcdiv (Q2Qc (inject_Z m)) (Q2Qc 60)) = false).
  { unfold JS.qneg, Qccompare.
    destruct (Qcompare_spec (this (Qcdiv (Q2Qc (inject_Z m)) (Q2Qc 60)))
                            (this (Q2Qc 0))) as [_|Hlt|_]; try reflexivity.
    rewrite this_div_60 in Hlt. change (this (Q2Qc 0)) with 0%Q in Hlt. lra. }
  rewrite Hneg. apply Q2Qc_eq_iff.
  assert (Hfl : Qfloor (Qabs (this (Qcdiv (Q2Qc (inject_Z m)) (Q2Qc 60))) * 100
                        + (1 # 2))
                = (10 * m + 3) / 6).
  { rewrite this_div_60, (Qabs_pos _ Hq).
    transitivity (Qfloor ((10 * m + 3) # 6)); [|reflexivity].
    apply Qfloor_comp. unfold Qeq, Qdiv, Qmult, Qplus, Qinv, inject_Z.
    cbn -[Z.mul Z.add]. lia. }
  rewrite Hfl. reflexivity.
Qed.

Lemma checkOut_no_open e now t :
  openRows e t = [] -> markAttendance e TCheckOut now t = (NoActiveSession, t).
Proof. intros H. unfold markAttendance. now rewrite H. Qed.

Lemma checkIn_then_checkOut e t1 t2 t :
  openRows e t = [] ->
  markAttendance e TCheckIn t1 t = (Returned true, insertCheckIn e t1 t) /\
  markAttendance e TCheckOut t2 (insertCheckIn e t1 t)
  = (Returned true,
     t ++ [mkAttendance (freshId t) e t1 (Some t2)
             (Some (hoursOfMinutes (diffMinutes t2 t1))) checked_out]).
Proof.
  intros H. unfold markAttendance. rewrite openRows_insert_same, H. simpl.
  split; [reflexivity|]. f_equal. apply updateCheckOut_fresh.
Qed.

Lemma ex_open_single : singleOpen ex_open.
Proof.
  intros e. change ex_open with [mkAttendance 1 "a" 0 None None checked_in].
  unfold openRows, filter. cbn [employee_id check_out is_null].
  destruct (String.eqb "a" e); simpl; lia.
Qed.

(** ** Invariant I1 *)




(** The table [ex_two_days] is what two check-ins of the quick-attendance
    widget, a day apart, leave behind. *)
Lemma ex_two_days_widget :
  widgetMarkAttendance 0 0 "a" TCheckIn msPerDay msPerDay
    (widgetMarkAttendance 0 0 "a" TCheckIn 0 0 [])
  = ex_two_days.
Proof. reflexivity. Qed.




(** ** Check-in *)

(** C2 (counterexample). A session left open the day before blocks the
    check-in although no session is open on the day of the request. *)
Lemma checkIn_scoped_by_day_fails :
  ~ checkIn_scoped_by_day 0 "a" msPerDay ex_open.
Proof.
  unfold checkIn_scoped_by_day. intros [H _].
  apply H; reflexivity.
Qed.

(** C2 (amended). In a table with at most one open session per person, a
    check-in is rejected with "Already checked in" exactly when the person
    has an open session, whatever its day; a rejected request leaves the
    table as it was, and an accepted one appends one open row whose
    [check_in] is the time of the request. *)
Theorem checkIn_rejected_iff_open e now t :
  singleOpen t ->
  let res := markAttendance e TCheckIn now t in
  (fst res = AlreadyCheckedIn
   <-> exists r, In r t /\ employee_id r = e /\ isOpen r) /\
  (fst res = AlreadyCheckedIn -> snd res = t) /\
  (fst res <> AlreadyCheckedIn ->
   fst res = Returned true /\
   snd res = t ++ [mkAttendance (freshId t) e now None None checked_in]).
Proof.
  intros H res. subst res. unfold markAttendance.
  specialize (H e).
  destruct (openRows e t) as [|r [|r' l]] eqn:Hq; simpl in *; try lia.
  - repeat split; try discriminate; try congruence.
    intros (r & Hr). apply In_openRows in Hr. now rewrite Hq in Hr.
  - repeat split; try congruence.
    exists r. apply In_openRows. rewrite Hq. now left.
Qed.

Lemma checkIn_rejected_iff_open_witness :
  fst (markAttendance "a" TCheckIn 5 ex_open) = AlreadyCheckedIn /\
  snd (markAttendance "a" TCheckIn 5 ex_open) = ex_open.
Proof.
  pose proof ex_open_single as H.
  destruct (checkIn_rejected_iff_open "a" 5 ex_open H) as (Hiff & Hsame & _).
  assert (Hrej : fst (markAttendance "a" TCheckIn 5 ex_open) = AlreadyCheckedIn)
    by reflexivity.
  split; [exact Hrej | exact (Hsame Hrej)].
Defined.

(** ** Check-in followed by check-out *)

(** C3 (counterexample). 59 seconds are 0.02 h when rounded, but the
    session is closed with 0 h: the difference is first cut to whole
    minutes. *)
Lemma totalHours_exact_fails : ~ totalHours_exact "a" 0 59000.
Proof.
  unfold totalHours_exact. intros H.
  apply (f_equal (map (option_map this))) in H.
  vm_compute in H. discriminate.
Qed.

(** C3 (amended). For a person without an open session, check-in at [t1]
    followed by check-out at [t2] both succeed and leave one closed session
    whose [total_hours] is the number of whole minutes from [t1] to [t2],
    divided by 60 and rounded to two decimals: with [m] whole minutes,
    [floor ((10 m + 3) / 6)] hundredths of an hour. *)
Theorem checkIn_checkOut_total_hours e t1 t2 t :
  openRows e t = [] ->
  let s1 := markAttendance e TCheckIn t1 t in
  let s2 := markAttendance e TCheckOut t2 (snd s1) in
  fst s1 = Returned true /\ fst s2 = Returned true /\
  snd s2 = t ++ [mkAttendance (freshId t) e t1 (Some t2)
                   (Some (hoursOfMinutes (diffMinutes t2 t1))) checked_out] /\
  (t1 <= t2 ->
   hoursOfMinutes (diffMinutes t2 t1)
   = Q2Qc (((10 * ((t2 - t1) / 60000) + 3) / 6) # 100)).
Proof.
  intros H s1 s2. subst s2 s1.
  destruct (checkIn_then_checkOut e t1 t2 t H) as [Hin Hout].
  rewrite Hin. cbn [fst snd]. rewrite Hout. cbn [fst snd].
  split; [reflexivity|]. split; [reflexivity|]. split; [reflexivity|].
  intros Hle. unfold diffMinutes.
  rewrite Z.quot_div_nonneg by lia.
  apply hoursOfMinutes_hundredths. apply Z.div_pos; lia.
Qed.

Lemma checkIn_checkOut_total_hours_witness :
  map (option_map this) (map total_hours
    (snd (markAttendance "a" TCheckOut 63000000
       (snd (markAttendance "a" TCheckIn 32400000 [])))))
  = [Some (17 # 2)%Q].
Proof.
  destruct (checkIn_checkOut_total_hours "a" 32400000 63000000 [] eq_refl)
    as (_ & _ & -> & _).
  reflexivity.
Defined.

(** ** Check-out without an open session *)




(** ** A further check-out after the session is closed *)

(** C5 (counterexample). The third request is answered like a check-out
    that was never preceded by a check-in. *)
Lemma third_checkOut_AlreadyCheckedOut_fails :
  ~ third_checkOut_AlreadyCheckedOut "a" 0 60000 120000.
Proof.
  unfold third_checkOut_AlreadyCheckedOut. intros H. discriminate H.
Qed.

(** C5 (amended). After check-in and check-out, a further check-out
    request through [markAttendance] is rejected with "No active check-in
    session" and changes nothing.  "Already checked out" is the answer of
    the day-scoped toggle [markAttendanceForEmployeeId]: its third call of
    the day, after the calls that checked in and out, reports it and
    changes nothing either. *)
Theorem checkOut_after_close tz e t1 t2 t3 t :
  openRows e t = [] ->
  todayRows tz e t1 t = [] ->
  dayKey tz t2 = dayKey tz t1 -> dayKey tz t3 = dayKey tz t1 ->
  t1 < endOfDayIso tz t1 ->
  (let closed := snd (markAttendance e TCheckOut t2
                        (snd (markAttendance e TCheckIn t1 t))) in
   markAttendance e TCheckOut t3 closed = (NoActiveSession, closed)) /\
  (let a := markAttendanceForEmployeeId tz e t1 t in
   let b := markAttendanceForEmployeeId tz e t2 (snd a) in
   let c := markAttendanceForEmployeeId tz e t3 (snd b) in
   fst a = "Checked In"%string /\ fst b = "Checked Out"%string /\
   c = ("Already checked out"%string, snd b)).
Proof.
  intros Hopen Htoday H2 H3 Hlt. split.
  - destruct (checkIn_then_checkOut e t1 t2 t Hopen) as [Hin Hout].
    cbv zeta. rewrite Hin. cbn [snd]. rewrite Hout. cbn [snd].
    apply checkOut_no_open.
    apply openRows_closed_last; [assumption | discriminate].
  - cbv zeta.
    assert (Ha : markAttendanceForEmployeeId tz e t1 t
                 = ("Checked In"%string, insertCheckIn e t1 t)).
    { unfold markAttendanceForEmployeeId. now rewrite Htoday. }
    rewrite Ha. simpl snd.
    assert (Hb : markAttendanceForEmployeeId tz e t2 (insertCheckIn e t1 t)
                 = ("Checked Out"%string,
                    t ++ [mkAttendance (freshId t) e t1 (Some t2)
                            (Some (totalHoursOfMs (t2 - t1))) checked_out])).
    { unfold markAttendanceForEmployeeId, insertCheckIn.
      rewrite (todayRows_same_day tz e t2 t1) by assumption.
      rewrite todayRows_app, Htoday, todayRows_own by (reflexivity || assumption).
      simpl. f_equal. apply updateCheckOut_fresh. }
    rewrite Hb. simpl snd. repeat split.
    unfold markAttendanceForEmployeeId.
    rewrite (todayRows_same_day tz e t3 t1) by assumption.
    rewrite todayRows_app, Htoday, todayRows_own by (reflexivity || assumption).
    reflexivity.
Qed.

Lemma checkOut_after_close_witness :
  fst (markAttendance "a" TCheckOut 120000
         (run [Mark "a" TCheckIn 0; Mark "a" TCheckOut 60000]))
  = NoActiveSession /\
  markAttendanceForEmployeeId 0 "a" 120000
    (snd (markAttendanceForEmployeeId 0 "a" 60000
            (snd (markAttendanceForEmployeeId 0 "a" 0 []))))
  = ("Already checked out"%string,
     snd (markAttendanceForEmployeeId 0 "a" 60000
            (snd (markAttendanceForEmployeeId 0 "a" 0 [])))).
Proof.
  destruct (checkOut_after_close 0 "a" 0 60000 120000 []
              eq_refl eq_refl eq_refl eq_refl eq_refl) as [H1 (_ & _ & H2)].
  split; [exact (f_equal fst H1) | exact H2].
Defined.

(** * Properties of the matcher *)

Section NumOrder.

Import JS.

Lemma Qc_gt_spec p q :
  match Qccompare p q with Gt => true | _ => false end = true <-> (q < p)%Qc.
Proof.
  unfold Qclt, Qccompare. rewrite (Qgt_alt (this p) (this q)).
  destruct (this p ?= this q)%Q; split; congruence.
Qed.

Lemma Qc_ge_spec p q :
  match Qccompare p q with Lt => false | _ => true end = true <-> (q <= p)%Qc.
Proof.
  unfold Qcle, Qccompare. rewrite (Qge_alt (this p) (this q)).
  destruct (this p ?= this q)%Q; split; congruence.
Qed.

Lemma gt_NaN_r a : gt a NaN = false.
Proof. now destruct a. Qed.

Lemma gt_ge a b : gt a b = true -> ge a b = true.
Proof.
  destruct a as [|s|p], b as [|t|q]; simpl; try congruence.
  - destruct s, t; simpl; congruence.
  - rewrite Qc_gt_spec, Qc_ge_spec. apply Qclt_le_weak.
Qed.

Lemma gt_false_ge a b : a <> NaN -> b <> NaN -> gt a b = false -> ge b a = true.
Proof.
  destruct a as [|s|p], b as [|t|q]; simpl; try congruence.
  - destruct s, t; simpl; congruence.
  - destruct s; simpl; congruence.
  - destruct t; simpl; congruence.
  - intros _ _ H. apply Qc_ge_spec. apply Qcnot_lt_le.
    intros Hlt. apply Qc_gt_spec in Hlt. congruence.
Qed.

Lemma gt_ge_trans a b c : gt a b = true -> ge b c = true -> gt a c = true.
Proof.
  destruct a as [|s|p], b as [|t|q], c as [|u|r]; simpl; try congruence;
    try (destruct s); try (destruct t); try (destruct u); simpl; try congruence.
  rewrite !Qc_gt_spec, Qc_ge_spec. intros H1 H2.
  eapply Qcle_lt_trans; eassumption.
Qed.

Lemma ge_refl a : a <> NaN -> ge a a = true.
Proof.
  destruct a as [|s|p]; simpl; try congruence.
  - now destruct s.
  - intros _. apply Qc_ge_spec, Qcle_refl.
Qed.

End NumOrder.

Lemma bestMatchOf_snoc capture l x :
  bestMatchOf capture (l ++ [x]) = bestStep capture (bestMatchOf capture l) x.
Proof. unfold bestMatchOf. now rewrite fold_left_app. Qed.

(** The loop leaves the first entry whose score is greatest. *)
Lemma bestMatchOf_first_max capture roster :
  roster <> [] ->
  (forall e, In e roster -> scoreOf capture e <> JS.NaN) ->
  exists i emp,
    nth_error roster i = Some emp /\
    bestMatchOf capture roster = Some (emp, scoreOf capture emp) /\
    (forall e, In e roster ->
       JS.ge (scoreOf capture emp) (scoreOf capture e) = true) /\
    (forall j e, (j < i)%nat -> nth_error roster j = Some e ->
       JS.gt (scoreOf capture emp) (scoreOf capture e) = true).
Proof.
  induction roster as [|x l IH] using rev_ind; [congruence|].
  intros _ Hnum. rewrite bestMatchOf_snoc.
  assert (Hx : scoreOf capture x <> JS.NaN) by (apply Hnum, in_or_app; simpl; auto).
  destruct l as [|y l'].
  - exists 0%nat, x. simpl. repeat split.
    + intros e [<-|[]]. now apply ge_refl.
    + intros j e Hj. lia.
  - destruct IH as (i & emp & Hi & Hbest & Hmax & Hfirst); [discriminate| |].
    { intros e He. apply Hnum, in_or_app. now left. }
    rewrite Hbest. unfold bestStep. fold (scoreOf capture x).
    assert (Hilt : (i < List.length (y :: l'))%nat)
      by (apply nth_error_Some; congruence).
    destruct (JS.gt (scoreOf capture x) (scoreOf capture emp)) eqn:Hgt.
    + exists (List.length (y :: l')), x. repeat split.
      * rewrite nth_error_app2, Nat.sub_diag by lia. reflexivity.
      * intros e He. apply in_app_or in He. destruct He as [He|[<-|[]]].
        -- apply gt_ge. eapply gt_ge_trans; [exact Hgt|]. now apply Hmax.
        -- now apply ge_refl.
      * intros j e Hj Hnth. rewrite nth_error_app1 in Hnth by exact Hj.
        eapply gt_ge_trans; [exact Hgt|]. apply Hmax.
        eapply nth_error_In; eassumption.
    + exists i, emp. repeat split.
      * rewrite nth_error_app1 by exact Hilt. exact Hi.
      * intros e He. apply in_app_or in He. destruct He as [He|[<-|[]]].
        -- now apply Hmax.
        -- apply gt_false_ge; auto.
           intros Hn. specialize (Hmax emp (nth_error_In _ _ Hi)).
           rewrite Hn in Hmax. discriminate.
      * intros j e Hj Hnth. rewrite nth_error_app1 in Hnth by lia.
        now apply (Hfirst j).
Qed.

(** ** Best match and threshold *)

(** C6 (counterexample). With an empty employee list the handler skips the
    matching branch and posts nothing. *)
Lemma empty_roster_no_match_fails : ~ empty_roster_no_match img2x2.
Proof. unfold empty_roster_no_match. simpl. discriminate. Qed.

(** C6 (amended). With an empty roster nothing is posted.  With a
    non-empty roster whose scores are all numbers, the handler posts a
    match for the first entry that attains the greatest score when that
    score reaches the threshold 0.36, and [no_match] otherwise. *)
Theorem match_first_maximum capture roster :
  onSamplesAcquired attendance [] capture = None /\
  (roster <> [] ->
   (forall e, In e roster -> scoreOf capture e <> JS.NaN) ->
   exists i emp,
     nth_error roster i = Some emp /\
     (forall e, In e roster ->
        JS.ge (scoreOf capture emp) (scoreOf capture e) = true) /\
     (forall j e, (j < i)%nat -> nth_error roster j = Some e ->
        JS.gt (scoreOf capture emp) (scoreOf capture e) = true) /\
     onSamplesAcquired attendance roster capture
     = Some (if JS.ge (scoreOf capture emp) THRESHOLD
             then fingerprint_attendance_match emp capture
             else fingerprint_attendance_no_match capture)).
Proof.
  split; [reflexivity|]. intros Hne Hnum.
  destruct (bestMatchOf_first_max capture roster Hne Hnum)
    as (i & emp & Hi & Hbest & Hmax & Hfirst).
  exists i, emp. repeat split; try assumption.
  unfold onSamplesAcquired. destruct roster as [|x l]; [congruence|].
  rewrite Hbest. now destruct (JS.ge (scoreOf capture emp) THRESHOLD).
Qed.

Lemma match_first_maximum_witness :
  onSamplesAcquired attendance [emp_dark; emp_same; emp_twin] img2x2
  = Some (fingerprint_attendance_match emp_same img2x2) /\
  exists i emp,
    nth_error [emp_dark; emp_same; emp_twin] i = Some emp /\
    (forall e, In e [emp_dark; emp_same; emp_twin] ->
       JS.ge (scoreOf img2x2 emp) (scoreOf img2x2 e) = true) /\
    (forall j e, (j < i)%nat ->
       nth_error [emp_dark; emp_same; emp_twin] j = Some e ->
       JS.gt (scoreOf img2x2 emp) (scoreOf img2x2 e) = true) /\
    onSamplesAcquired attendance [emp_dark; emp_same; emp_twin] img2x2
    = Some (if JS.ge (scoreOf img2x2 emp) THRESHOLD
            then fingerprint_attendance_match emp img2x2
            else fingerprint_attendance_no_match img2x2).
Proof.
  split; [vm_compute; reflexivity|].
  apply (proj2 (match_first_maximum img2x2 [emp_dark; emp_same; emp_twin])).
  - discriminate.
  - intros e [<-|[<-|[<-|[]]]]; vm_compute; discriminate.
Defined.

(** ** A first score that is not a number *)

Lemma bestStep_NaN_stays capture emp0 rest :
  fold_left (bestStep capture) rest (Some (emp0, JS.NaN)) = Some (emp0, JS.NaN).
Proof.
  induction rest as [|x rest IH]; simpl; [reflexivity|].
  now rewrite gt_NaN_r.
Qed.

(** C10. The first entry of the roster is installed as best match without
    any comparison; when its score is NaN no later entry replaces it, the
    threshold test fails and [no_match] is posted, whatever the other
    scores. *)
Theorem first_score_NaN_no_match capture emp0 rest :
  scoreOf capture emp0 = JS.NaN ->
  bestMatchOf capture (emp0 :: rest)
  = fold_left (bestStep capture) rest (Some (emp0, scoreOf capture emp0)) /\
  bestMatchOf capture (emp0 :: rest) = Some (emp0, JS.NaN) /\
  onSamplesAcquired attendance (emp0 :: rest) capture
  = Some (fingerprint_attendance_no_match capture).
Proof.
  intros H.
  assert (Hb : bestMatchOf capture (emp0 :: rest) = Some (emp0, JS.NaN)).
  { unfold bestMatchOf. simpl. fold (scoreOf capture emp0).
    rewrite H. apply bestStep_NaN_stays. }
  split; [reflexivity|]. split; [exact Hb|].
  unfold onSamplesAcquired. now rewrite Hb.
Qed.

Lemma first_score_NaN_no_match_witness :
  JS.ge (scoreOf img2x2 emp_same) THRESHOLD = true /\
  onSamplesAcquired attendance [emp_small; emp_same] img2x2
  = Some (fingerprint_attendance_no_match img2x2).
Proof.
  split; [vm_compute; reflexivity|].
  apply (first_score_NaN_no_match img2x2 emp_small [emp_same]).
  vm_compute. reflexivity.
Defined.

(** * Properties of the scorer *)

(** ** Images of different dimensions *)

(** C7 (counterexample). A 2x2 image against the same bytes declared 4x1
    scores 1. *)
Lemma mismatch_not_numeric_fails : ~ mismatch_not_numeric img2x2 img4x1.
Proof.
  unfold mismatch_not_numeric. intros H.
  assert (Hd : width img2x2 <> width img4x1 \/ height img2x2 <> height img4x1)
    by (left; discriminate).
  apply (H Hd (Q2Qc 1)). vm_compute. reflexivity.
Qed.

(** ** Blocks of a single pixel *)

Section Degenerate.

Import JS.

Lemma mul_NaN_r a : mul a NaN = NaN.
Proof. now destruct a. Qed.

Lemma div_NaN_r a : div a NaN = NaN.
Proof. now destruct a. Qed.

Lemma add_NaN_r a : add a NaN = NaN.
Proof. now destruct a. Qed.

Lemma pixel_cases d idx : pixel d idx = NaN \/ exists q, pixel d idx = Num q.
Proof.
  unfold pixel. destruct (nth_error d idx); [right|left]; eauto.
  eexists; reflexivity.
Qed.

Lemma qzero_iff q : qzero q = true <-> q = 0%Qc.
Proof.
  unfold qzero. rewrite (Qceq_alt q 0). change (Q2Qc 0) with 0%Qc.
  destruct (q ?= 0)%Qc; split; congruence.
Qed.

Lemma div_Num p q : q <> 0%Qc -> div (Num p) (Num q) = Num (p / q).
Proof.
  intros H. unfold div. destruct (qzero q) eqn:Hz; [|reflexivity].
  now apply qzero_iff in Hz.
Qed.

Lemma div_zero_zero p q : p = 0%Qc -> q = 0%Qc -> div (Num p) (Num q) = NaN.
Proof.
  intros Hp Hq. unfold div.
  now rewrite (proj2 (qzero_iff q) Hq), (proj2 (qzero_iff p) Hp).
Qed.

Lemma ofZ_0 : ofZ 0 = Num 0.
Proof. reflexivity. Qed.

Lemma ofZ_1 : ofZ 1 = Num 1.
Proof. reflexivity. Qed.

Lemma ofNat_1 : ofNat 1 = Num 1.
Proof. reflexivity. Qed.

Lemma sub_Num p q : sub (Num p) (Num q) = Num (p - q).
Proof. reflexivity. Qed.

(** One sample: the mean is the sample, the centred sum is 0 and the
    division by [N - 1 = 0] yields NaN. *)
Lemma variance_single I :
  I = NaN \/ (exists q, I = Num q) ->
  let mu := div (add (ofZ 0) I) (ofNat 1) in
  let d := sub I mu in
  div (add (ofZ 0) (mul d d)) (sub (ofNat 1) (ofZ 1)) = NaN.
Proof.
  intros [->|[q ->]]; [reflexivity|].
  cbv zeta. rewrite ofZ_0, ofZ_1, ofNat_1. cbn [add].
  rewrite div_Num by discriminate.
  rewrite !sub_Num. cbn [mul add].
  apply div_zero_zero; field. discriminate.
Qed.

Lemma span_last n : (n mod 8 = 1)%nat -> span (n - 1) n = [(n - 1)%nat].
Proof.
  intros H. unfold span, windowSize.
  assert (Hn : (1 <= n)%nat) by (destruct n; [discriminate | lia]).
  replace (Nat.min (n - 1 + 8) n - (n - 1))%nat with 1%nat by lia.
  reflexivity.
Qed.

Lemma blockCoords_last w h :
  (w mod 8 = 1)%nat -> (h mod 8 = 1)%nat ->
  blockCoords w h (w - 1) (h - 1) = [((w - 1)%nat, (h - 1)%nat)].
Proof.
  intros Hw Hh. unfold blockCoords.
  now rewrite (span_last w Hw), (span_last h Hh).
Qed.

Lemma getBlockStats_single a b x y ij :
  blockCoords (width a) (height a) x y = [ij] -> getBlockStats a b x y = NaN.
Proof.
  intros H. unfold getBlockStats. rewrite H. cbn [fold_left sumStep centredStep].
  rewrite (variance_single _ (pixel_cases (data a) (idxOf a ij))).
  cbn [add]. now rewrite mul_NaN_r, div_NaN_r.
Qed.

Lemma origins_last n : (n mod 8 = 1)%nat -> In (n - 1)%nat (origins n).
Proof.
  intros H. unfold origins, windowSize. apply in_map_iff.
  pose proof (Nat.div_mod_eq n 8) as E1.
  pose proof (Nat.div_mod_eq (n - 1) 8) as E2.
  pose proof (Nat.div_mod_eq (n + 8 - 1) 8) as E3.
  pose proof (Nat.mod_upper_bound (n - 1) 8 ltac:(discriminate)) as B2.
  pose proof (Nat.mod_upper_bound (n + 8 - 1) 8 ltac:(discriminate)) as B3.
  exists ((n - 1) / 8)%nat. split; [lia|].
  apply in_seq. lia.
Qed.

Lemma total_NaN_stays a b bs : forall count,
  fst (fold_left (blockStep a b) bs (NaN, count)) = NaN.
Proof.
  induction bs as [|xy bs IH]; intros count; simpl; [reflexivity|].
  apply IH.
Qed.

Lemma total_NaN_block a b bs : forall acc xy,
  In xy bs -> getBlockStats a b (fst xy) (snd xy) = NaN ->
  fst (fold_left (blockStep a b) bs acc) = NaN.
Proof.
  induction bs as [|xy' bs IH]; intros [total count] xy Hin Hnan;
    simpl in Hin; [contradiction|].
  cbn [fold_left blockStep]. destruct Hin as [->|Hin].
  - rewrite Hnan, add_NaN_r. apply total_NaN_stays.
  - now apply (IH _ xy).
Qed.

Lemma computeSSIM_degenerate a b :
  (width a mod 8 = 1)%nat -> (height a mod 8 = 1)%nat ->
  computeSSIM a b = NaN.
Proof.
  intros Hw Hh. unfold computeSSIM.
  pose proof (total_NaN_block a b (blocks a) (ofZ 0, 0%nat)
                ((width a - 1)%nat, (height a - 1)%nat)) as H.
  destruct (fold_left _ _ _) as [total count]. simpl in H.
  rewrite H; [reflexivity | |].
  - apply in_flat_map. exists (height a - 1)%nat. split.
    + now apply origins_last.
    + apply (in_map (fun x => (x, (height a - 1)%nat))). now apply origins_last.
  - apply (getBlockStats_single a b _ _ _ (blockCoords_last _ _ Hw Hh)).
Qed.

End Degenerate.

(** ** Offsets outside the second buffer *)

Section OutOfBuffer.

Import JS.

Lemma sumStep_NaN_stays a b cs : forall mu1 N,
  snd (fst (fold_left (sumStep a b) cs (mu1, NaN, N))) = NaN.
Proof.
  induction cs as [|ij cs IH]; intros mu1 N; cbn [fold_left]; [reflexivity|].
  unfold sumStep at 2. cbn [add]. apply IH.
Qed.

Lemma sumStep_NaN a b cs : forall acc ij,
  In ij cs -> pixel (data b) (idxOf a ij) = NaN ->
  snd (fst (fold_left (sumStep a b) cs acc)) = NaN.
Proof.
  induction cs as [|ij' cs IH]; intros [[mu1 mu2] N] ij Hin Hnan;
    simpl in Hin; [contradiction|].
  cbn [fold_left]. unfold sumStep at 2. destruct Hin as [->|Hin].
  - rewrite Hnan, add_NaN_r. apply sumStep_NaN_stays.
  - now apply (IH _ ij).
Qed.

Lemma getBlockStats_out_of_buffer a b x y ij :
  In ij (blockCoords (width a) (height a) x y) ->
  (List.length (data b) <= idxOf a ij)%nat ->
  getBlockStats a b x y = NaN.
Proof.
  intros Hin Hlen. unfold getBlockStats.
  pose proof (sumStep_NaN a b (blockCoords (width a) (height a) x y)
                (ofZ 0, ofZ 0, 0%nat) ij Hin) as H.
  destruct (fold_left (sumStep a b) _ _) as [[mu1 mu2] N]. cbn [fst snd] in H.
  rewrite H.
  - cbn [div]. destruct (fold_left _ _ _) as [[s1 s2] s12].
    now rewrite mul_NaN_r.
  - unfold pixel. now rewrite (proj2 (nth_error_None _ _) Hlen).
Qed.

Lemma In_origins_of i n : (i < n)%nat -> In (i / 8 * 8)%nat (origins n).
Proof.
  intros H. unfold origins, windowSize.
  apply (in_map (fun k => (k * 8)%nat)), in_seq.
  pose proof (Nat.div_mod_eq i 8) as E1.
  pose proof (Nat.div_mod_eq (n + 8 - 1) 8) as E2.
  pose proof (Nat.mod_upper_bound (n + 8 - 1) 8 ltac:(discriminate)) as B.
  lia.
Qed.

Lemma In_span_of i n : (i < n)%nat -> In i (span (i / 8 * 8) n).
Proof.
  intros H. unfold span, windowSize. apply in_seq.
  pose proof (Nat.div_mod_eq i 8) as E1.
  pose proof (Nat.mod_upper_bound i 8 ltac:(discriminate)) as B.
  lia.
Qed.

Lemma computeSSIM_out_of_buffer a b i j :
  (i < width a)%nat -> (j < height a)%nat ->
  (List.length (data b) <= idxOf a (i, j))%nat ->
  computeSSIM a b = NaN.
Proof.
  intros Hi Hj Hlen. unfold computeSSIM.
  pose proof (total_NaN_block a b (blocks a) (ofZ 0, 0%nat)
                ((i / 8 * 8)%nat, (j / 8 * 8)%nat)) as H.
  destruct (fold_left _ _ _) as [total count]. cbn [fst snd] in H.
  rewrite H; [reflexivity | |].
  - apply in_flat_map. exists (j / 8 * 8)%nat. split.
    + now apply In_origins_of.
    + apply (in_map (fun x => (x, (j / 8 * 8)%nat))). now apply In_origins_of.
  - apply (getBlockStats_out_of_buffer a b _ _ (i, j)); [|exact Hlen].
    unfold blockCoords. apply in_flat_map. exists j. split.
    + now apply In_span_of.
    + apply (in_map (fun i => (i, j))). now apply In_span_of.
Qed.

End OutOfBuffer.

(** ** Self-similarity away from single-pixel blocks *)

Section Regular.

Import JS.

Local Open Scope Qc_scope.

Lemma Qc_sq_nonneg x : 0 <= x * x.
Proof.
  unfold Qcle, Qcmult, Q2Qc. cbn [this]. rewrite !Qred_correct.
  destruct x as [[n d] c]. unfold Qle, Qmult. cbn. nia.
Qed.

Lemma Qc_sum_pos a b c : 0 <= a -> 0 <= b -> 0 < c -> a + b + c <> 0.
Proof.
  intros Ha Hb Hc. apply not_eq_sym, Qclt_not_eq.
  unfold Qclt, Qcle, Qcplus, Q2Qc in *. cbn [this] in *.
  rewrite !Qred_correct. rewrite Qred_correct in Ha, Hb, Hc. lra.
Qed.

Lemma Qc_div_nonneg a b : 0 <= a -> 0 < b -> 0 <= a / b.
Proof.
  intros Ha Hb. unfold Qcdiv, Qcinv, Qclt, Qcle, Qcmult, Q2Qc in *.
  cbn [this] in *. rewrite !Qred_correct. rewrite Qred_correct in Ha, Hb.
  apply Qmult_le_0_compat; [exact Ha|].
  apply Qinv_le_0_compat. lra.
Qed.

Lemma Qc_div_same x : x <> 0 -> x / x = 1.
Proof. intros H. unfold Qcdiv. now apply Qcmult_inv_r. Qed.

Lemma ofNat_natQ n : ofNat n = Num (natQ n).
Proof. reflexivity. Qed.

Lemma natQ_S n : natQ n + 1 = natQ (S n).
Proof.
  unfold natQ, Qcplus. apply Q2Qc_eq_iff. cbn [this Q2Qc].
  rewrite !Qred_correct, Nat2Z.inj_succ. unfold Z.succ.
  now rewrite inject_Z_plus.
Qed.

Lemma natQ_pos n : (1 <= n)%nat -> 0 < natQ n.
Proof.
  intros H. unfold Qclt, natQ, Q2Qc. cbn [this]. rewrite !Qred_correct.
  unfold Qlt. cbn. lia.
Qed.

Lemma natQ_pred_pos n : (2 <= n)%nat -> 0 < natQ n - 1.
Proof.
  intros H. unfold Qclt, Qcminus, Qcplus, Qcopp, natQ, Q2Qc. cbn [this].
  rewrite !Qred_correct. unfold Qlt. cbn. lia.
Qed.

Lemma pixel_defined d idx :
  (idx < List.length d)%nat -> pixel d idx = Num (pixq d idx).
Proof.
  intros H. unfold pixel, pixq.
  destruct (nth_error d idx) eqn:E; [reflexivity|].
  apply nth_error_None in E. lia.
Qed.

Lemma sumQ_cons x l : sumQ (x :: l) = x + sumQ l.
Proof. reflexivity. Qed.

Lemma sumStep_fold a cs :
  within a cs -> forall s n,
  fold_left (sumStep a a) cs (Num s, Num s, n)
  = (Num (s + sumQ (map (fun ij => pixq (data a) (idxOf a ij)) cs)),
     Num (s + sumQ (map (fun ij => pixq (data a) (idxOf a ij)) cs)),
     (n + List.length cs)%nat).
Proof.
  induction cs as [|ij cs IH]; intros Hin s n; cbn [fold_left map List.length].
  - unfold sumQ; cbn [fold_right]. now rewrite Qcplus_0_r, Nat.add_0_r.
  - unfold sumStep at 2. rewrite pixel_defined by (apply Hin; now left).
    cbn [add]. rewrite IH by (intros ? ?; apply Hin; now right).
    now rewrite sumQ_cons, Qcplus_assoc, Nat.add_succ_r.
Qed.

Lemma centredStep_fold a cs m :
  within a cs -> forall v,
  fold_left (centredStep a a (Num m) (Num m)) cs (Num v, Num v, Num v)
  = (Num (v + sumQ (map (fun ij => sqdev m (pixq (data a) (idxOf a ij))) cs)),
     Num (v + sumQ (map (fun ij => sqdev m (pixq (data a) (idxOf a ij))) cs)),
     Num (v + sumQ (map (fun ij => sqdev m (pixq (data a) (idxOf a ij))) cs))).
Proof.
  induction cs as [|ij cs IH]; intros Hin v; cbn [fold_left map].
  - unfold sumQ; cbn [fold_right]. now rewrite Qcplus_0_r.
  - unfold centredStep at 2. rewrite pixel_defined by (apply Hin; now left).
    rewrite sub_Num. cbn [add mul]. fold (sqdev m (pixq (data a) (idxOf a ij))).
    rewrite IH by (intros ? ?; apply Hin; now right).
    now rewrite sumQ_cons, Qcplus_assoc.
Qed.

Lemma sumQ_sqdev_nonneg m l : 0 <= sumQ (map (sqdev m) l).
Proof.
  induction l as [|p l IH]; cbn [map]; [apply Qcle_refl|].
  rewrite sumQ_cons, <- (Qcplus_0_l 0).
  apply Qcplus_le_compat; [apply Qc_sq_nonneg | exact IH].
Qed.

(** A block with at least two samples, all inside the buffer, compared
    with itself: numerator and denominator coincide and are positive. *)
Lemma getBlockStats_self a x y :
  within a (blockCoords (width a) (height a) x y) ->
  (2 <= List.length (blockCoords (width a) (height a) x y))%nat ->
  getBlockStats a a x y = Num 1.
Proof.
  intros Hin HN. unfold getBlockStats.
  set (cs := blockCoords (width a) (height a) x y) in *.
  rewrite ofZ_0, (sumStep_fold a cs Hin 0 0%nat). cbn [Nat.add].
  rewrite !ofNat_natQ, ofZ_1, sub_Num.
  set (S := 0 + sumQ (map (fun ij => pixq (data a) (idxOf a ij)) cs)).
  set (n := natQ (List.length cs)).
  assert (Hn : n <> 0) by (apply not_eq_sym, Qclt_not_eq, natQ_pos; lia).
  assert (Hn1 : 0 < n - 1) by (apply natQ_pred_pos; exact HN).
  rewrite (div_Num S n Hn).
  rewrite (centredStep_fold a cs (S / n) Hin 0).
  rewrite <- (map_map (fun ij => pixq (data a) (idxOf a ij)) (sqdev (S / n))).
  set (V := 0 + sumQ (map (sqdev (S / n)) (map (fun ij => pixq (data a) (idxOf a ij)) cs))).
  assert (HV : 0 <= V).
  { subst V. rewrite Qcplus_0_l. apply sumQ_sqdev_nonneg. }
  rewrite (div_Num V (n - 1)) by (apply not_eq_sym, Qclt_not_eq; exact Hn1).
  pose proof (Qc_div_nonneg V (n - 1) HV Hn1) as Hs.
  set (sg := V / (n - 1)) in *. set (m := S / n).
  unfold C1, C2, ofZ. cbn [mul add].
  set (c1 := Q2Qc (65025 # 10000)). set (c2 := Q2Qc (585225 # 10000)).
  assert (Hc1 : 0 < c1) by reflexivity.
  assert (Hc2 : 0 < c2) by reflexivity.
  assert (Hden : (m * m + m * m + c1) * (sg + sg + c2) <> 0).
  { intros H0. apply Qcmult_integral in H0. destruct H0 as [H0|H0]; revert H0.
    - apply Qc_sum_pos; auto using Qc_sq_nonneg.
    - now apply Qc_sum_pos. }
  rewrite div_Num by exact Hden. f_equal.
  replace ((Q2Qc (inject_Z 2) * m * m + c1) * (Q2Qc (inject_Z 2) * sg + c2))
    with ((m * m + m * m + c1) * (sg + sg + c2)).
  - now apply Qc_div_same.
  - change (Q2Qc (inject_Z 2)) with (1 + 1). ring.
Qed.

Lemma length_grid {A} (g : nat -> nat -> A) (l l' : list nat) :
  List.length (flat_map (fun j => map (fun i => g i j) l) l')
  = (List.length l' * List.length l)%nat.
Proof.
  induction l' as [|j l' IH]; cbn [flat_map List.length]; [reflexivity|].
  rewrite length_app, length_map, IH. lia.
Qed.

Lemma In_origins x n : In x (origins n) -> (x < n)%nat /\ (x mod 8 = 0)%nat.
Proof.
  unfold origins, windowSize. rewrite in_map_iff.
  intros (k & <- & Hk). apply in_seq in Hk.
  pose proof (Nat.div_mod_eq (n + 8 - 1) 8) as E.
  pose proof (Nat.mod_upper_bound (n + 8 - 1) 8 ltac:(discriminate)) as B.
  split; [lia|]. apply Nat.Div0.mod_mul.
Qed.

Lemma length_origins n : (1 <= n)%nat -> (1 <= List.length (origins n))%nat.
Proof.
  intros H. unfold origins, windowSize. rewrite length_map, length_seq.
  pose proof (Nat.div_mod_eq (n + 8 - 1) 8) as E.
  pose proof (Nat.mod_upper_bound (n + 8 - 1) 8 ltac:(discriminate)) as B.
  lia.
Qed.

Lemma In_span i x n : In i (span x n) -> (i < n)%nat.
Proof. unfold span, windowSize. rewrite in_seq. lia. Qed.

Lemma length_span x n :
  In x (origins n) ->
  (1 <= List.length (span x n))%nat /\
  ((n mod 8 <> 1)%nat -> (2 <= List.length (span x n))%nat).
Proof.
  intros Hx. apply In_origins in Hx. destruct Hx as [Hlt Hx].
  unfold span, windowSize. rewrite length_seq.
  split; [lia|]. intros Hn.
  pose proof (Nat.div_mod_eq x 8) as E1.
  pose proof (Nat.div_mod_eq n 8) as E2.
  pose proof (Nat.mod_upper_bound n 8 ltac:(discriminate)) as B.
  lia.
Qed.

Lemma In_blocks a xy :
  In xy (blocks a) ->
  In (fst xy) (origins (width a)) /\ In (snd xy) (origins (height a)).
Proof.
  unfold blocks. rewrite in_flat_map. intros (y & Hy & Hxy).
  apply in_map_iff in Hxy. destruct Hxy as (x & <- & Hx). now split.
Qed.

Lemma within_block a x y :
  (4 * width a * height a <= List.length (data a))%nat ->
  within a (blockCoords (width a) (height a) x y).
Proof.
  intros Hlen [i j] Hij. unfold blockCoords in Hij.
  apply in_flat_map in Hij. destruct Hij as (j' & Hj & Hij).
  apply in_map_iff in Hij. destruct Hij as (i' & E & Hi).
  injection E as -> ->.
  apply In_span in Hj. apply In_span in Hi.
  unfold idxOf. cbn [fst snd]. nia.
Qed.

Lemma blockStep_fold a bs :
  (forall xy, In xy bs -> getBlockStats a a (fst xy) (snd xy) = Num 1) ->
  forall c, fold_left (blockStep a a) bs (Num (natQ c), c)
            = (Num (natQ (c + List.length bs)), (c + List.length bs)%nat).
Proof.
  induction bs as [|xy bs IH]; intros H c; cbn [fold_left List.length].
  - now rewrite Nat.add_0_r.
  - unfold blockStep at 2. rewrite H by now left. cbn [add].
    rewrite natQ_S, IH by (intros ? ?; apply H; now right).
    now rewrite Nat.add_succ_r.
Qed.

(** Outside the case of a single-pixel block, an image with a complete
    buffer scores exactly 1 against itself. *)
Lemma computeSSIM_self a :
  (1 <= width a)%nat -> (1 <= height a)%nat ->
  (4 * width a * height a <= List.length (data a))%nat ->
  (width a mod 8 <> 1)%nat \/ (height a mod 8 <> 1)%nat ->
  computeSSIM a a = Num 1.
Proof.
  intros Hw Hh Hlen Hreg. unfold computeSSIM.
  change (ofZ 0) with (Num (natQ 0)).
  rewrite blockStep_fold.
  - cbn [Nat.add]. rewrite ofNat_natQ.
    assert (Hn : natQ (List.length (blocks a)) <> 0).
    { apply not_eq_sym, Qclt_not_eq, natQ_pos. unfold blocks.
      rewrite (length_grid (fun x y => (x, y))).
      pose proof (length_origins _ Hw). pose proof (length_origins _ Hh). nia. }
    rewrite div_Num by exact Hn. f_equal. now apply Qc_div_same.
  - intros xy Hxy. apply In_blocks in Hxy. destruct Hxy as [Hx Hy].
    apply getBlockStats_self; [now apply within_block|].
    unfold blockCoords. rewrite (length_grid (fun i j => (i, j))).
    destruct (length_span _ _ Hx) as [Hx1 Hx2].
    destruct (length_span _ _ Hy) as [Hy1 Hy2].
    destruct Hreg as [Hr|Hr]; [specialize (Hx2 Hr) | specialize (Hy2 Hr)]; nia.
Qed.

End Regular.

(** C7 (amended). The scorer checks no dimensions and raises nothing: it
    walks the grid of the first image and reads the buffer of the second
    at the same offsets.  The declared width and height of the second
    image have no influence on the value; an offset of the grid outside
    the second buffer makes the score NaN; and a second image with the
    same bytes scores 1 whatever its declared dimensions, when the first
    image is complete and has no single-pixel block. *)
Theorem computeSSIM_no_dimension_check a b :
  (forall w' h', computeSSIM a (mkImageData w' h' (data b)) = computeSSIM a b) /\
  (forall i j, (i < width a)%nat -> (j < height a)%nat ->
     (List.length (data b) <= idxOf a (i, j))%nat ->
     computeSSIM a b = JS.NaN) /\
  (data b = data a -> regularImage a -> computeSSIM a b = JS.Num 1).
Proof.
  split; [reflexivity|]. split.
  - apply computeSSIM_out_of_buffer.
  - intros Hd (Hw & Hh & Hlen & Hreg).
    change (computeSSIM a b)
      with (computeSSIM a (mkImageData (width a) (height a) (data b))).
    rewrite Hd. destruct a as [w h d]. now apply computeSSIM_self.
Qed.

Lemma computeSSIM_no_dimension_check_witness :
  computeSSIM img2x2 (img1x1 7) = JS.NaN /\
  computeSSIM img2x2 img4x1 = JS.Num 1.
Proof.
  destruct (computeSSIM_no_dimension_check img2x2 (img1x1 7)) as (_ & Hnan & _).
  destruct (computeSSIM_no_dimension_check img2x2 img4x1) as (_ & _ & Hone).
  split.
  - apply (Hnan 1%nat 0%nat); unfold idxOf; simpl; lia.
  - apply Hone; [reflexivity|].
    unfold regularImage. simpl. repeat split; try lia.
Defined.

(** C8. When the width and the height both leave remainder 1 modulo the
    window size, the last block holds a single pixel; nothing special-cases
    it: the centred sums are divided by [N - 1 = 0] and the block's value
    is NaN. *)
Theorem single_pixel_block_divides_by_zero a b :
  (width a mod 8 = 1)%nat -> (height a mod 8 = 1)%nat ->
  let N := List.length
             (blockCoords (width a) (height a) (width a - 1) (height a - 1)) in
  N = 1%nat /\
  JS.sub (JS.ofNat N) (JS.ofZ 1) = JS.Num 0 /\
  getBlockStats a b (width a - 1) (height a - 1) = JS.NaN.
Proof.
  intros Hw Hh N. subst N. rewrite (blockCoords_last _ _ Hw Hh).
  split; [reflexivity|]. split.
  - simpl List.length. rewrite ofNat_1, ofZ_1, sub_Num. f_equal.
  - apply (getBlockStats_single a b _ _ _ (blockCoords_last _ _ Hw Hh)).
Qed.

Lemma single_pixel_block_divides_by_zero_witness :
  getBlockStats img9x9 img9x9 8 8 = JS.NaN.
Proof.
  exact (proj2 (proj2
    (single_pixel_block_divides_by_zero img9x9 img9x9 eq_refl eq_refl))).
Defined.

(** C9. An image whose width and height both leave remainder 1 modulo the
    window size does not score 1 against itself: the single-pixel block
    makes the total, and so the score, NaN.  Every other non-empty image
    with a complete buffer scores exactly 1 against itself. *)
Theorem self_similarity a :
  ((width a mod 8 = 1)%nat -> (height a mod 8 = 1)%nat ->
   computeSSIM a a = JS.NaN) /\
  (regularImage a -> computeSSIM a a = JS.Num 1).
Proof.
  split.
  - apply computeSSIM_degenerate.
  - intros (Hw & Hh & Hlen & Hreg). now apply computeSSIM_self.
Qed.

Lemma self_similarity_witness :
  computeSSIM img9x9 img9x9 = JS.NaN /\
  computeSSIM img2x2 img2x2 = JS.Num 1.
Proof.
  split.
  - exact (proj1 (self_similarity img9x9) eq_refl eq_refl).
  - apply (proj2 (self_similarity img2x2)).
    unfold regularImage. simpl. repeat split; try lia.
Defined.

(** * Further properties of the scorer *)

Section NumAlgebra.

Import JS.

Lemma add_comm a b : add a b = add b a.
Proof.
  destruct a as [|s|p], b as [|t|q]; simpl; try reflexivity.
  - now destruct s, t.
  - now rewrite Qcplus_comm.
Qed.

Lemma mul_comm a b : mul a b = mul b a.
Proof.
  destruct a as [|s|p], b as [|t|q]; simpl; try reflexivity.
  - now rewrite xorb_comm.
  - now rewrite xorb_comm.
  - now rewrite xorb_comm.
  - now rewrite Qcmult_comm.
Qed.

Lemma qneg_iff q : qneg q = true <-> (q < 0)%Qc.
Proof.
  unfold qneg. rewrite (Qclt_alt q 0). change (Q2Qc 0) with 0%Qc.
  destruct (q ?= 0)%Qc; split; congruence.
Qed.

Lemma bool_eq_iff (x y : bool) : (x = true <-> y = true) -> x = y.
Proof. destruct x, y; intuition congruence. Qed.

Lemma qzero_double q : qzero (Q2Qc (inject_Z 2) * q)%Qc = qzero q.
Proof.
  apply bool_eq_iff. rewrite !qzero_iff. split.
  - intros H. apply Qcmult_integral in H. destruct H as [H|H]; [discriminate|exact H].
  - intros ->. apply Qcmult_0_r.
Qed.

Lemma qneg_double q : qneg (Q2Qc (inject_Z 2) * q)%Qc = qneg q.
Proof.
  apply bool_eq_iff. rewrite !qneg_iff.
  unfold Qclt, Qcmult, Q2Qc. cbn [this]. rewrite !Qred_correct.
  change (inject_Z 2) with 2%Q. split; intros H; lra.
Qed.

(** [2 * x * y] and [2 * y * x] agree, special values included. *)
Lemma mul2_swap x y :
  mul (mul (ofZ 2) x) y = mul (mul (ofZ 2) y) x.
Proof.
  destruct x as [|s|p], y as [|t|q]; try reflexivity.
  - change (mul (ofZ 2) (Inf s)) with (Inf s).
    change (mul (ofZ 2) (Inf t)) with (Inf t).
    simpl. now rewrite xorb_comm.
  - change (mul (ofZ 2) (Inf s)) with (Inf s).
    unfold ofZ. cbn [mul]. now rewrite qzero_double, qneg_double, xorb_comm.
  - change (mul (ofZ 2) (Inf t)) with (Inf t).
    unfold ofZ. cbn [mul]. now rewrite qzero_double, qneg_double, xorb_comm.
  - unfold ofZ. cbn [mul]. f_equal. ring.
Qed.

End NumAlgebra.

Lemma fold_left_pointwise {A B} (f g : A -> B -> A) (l : list B) :
  (forall acc x, f acc x = g acc x) ->
  forall init, fold_left f l init = fold_left g l init.
Proof.
  intros H. induction l as [|x l IH]; intros init; simpl; [reflexivity|].
  now rewrite H, IH.
Qed.

Lemma idxOf_width a b ij : width a = width b -> idxOf a ij = idxOf b ij.
Proof. intros H. unfold idxOf. now rewrite H. Qed.

Lemma sumStep_swap a b cs :
  width a = width b -> forall x y n,
  fold_left (sumStep a b) cs (x, y, n)
  = swap12 (fold_left (sumStep b a) cs (y, x, n)).
Proof.
  intros Hw. induction cs as [|ij cs IH]; intros x y n; [reflexivity|].
  cbn [fold_left]. unfold sumStep at 2 4.
  rewrite (idxOf_width a b ij Hw). apply IH.
Qed.

Lemma centredStep_swap a b m1 m2 cs :
  width a = width b -> forall s1 s2 s12,
  fold_left (centredStep a b m1 m2) cs (s1, s2, s12)
  = swap12 (fold_left (centredStep b a m2 m1) cs (s2, s1, s12)).
Proof.
  intros Hw. induction cs as [|ij cs IH]; intros s1 s2 s12; [reflexivity|].
  cbn [fold_left]. unfold centredStep at 2 4.
  rewrite (idxOf_width a b ij Hw).
  rewrite (mul_comm (JS.sub (pixel (data a) (idxOf b ij)) m1)
                    (JS.sub (pixel (data b) (idxOf b ij)) m2)).
  apply IH.
Qed.

Lemma getBlockStats_sym a b x y :
  width a = width b -> height a = height b ->
  getBlockStats a b x y = getBlockStats b a x y.
Proof.
  intros Hw Hh. unfold getBlockStats. rewrite <- Hw, <- Hh.
  rewrite (sumStep_swap a b _ Hw).
  destruct (fold_left (sumStep b a) _ _) as [[p q] n]. cbn [swap12].
  rewrite (centredStep_swap a b _ _ _ Hw).
  destruct (fold_left (centredStep b a _ _) _ _) as [[u v] c]. cbn [swap12].
  rewrite (mul2_swap (JS.div q (JS.ofNat n)) (JS.div p (JS.ofNat n))).
  rewrite (add_comm (JS.mul (JS.div q (JS.ofNat n)) (JS.div q (JS.ofNat n)))).
  rewrite (add_comm (JS.div v (JS.sub (JS.ofNat n) (JS.ofZ 1)))).
  reflexivity.
Qed.

(** X1. Images of equal width and height score the same in either order. *)
Theorem computeSSIM_sym a b :
  width a = width b -> height a = height b ->
  computeSSIM a b = computeSSIM b a.
Proof.
  intros Hw Hh. unfold computeSSIM, blocks. rewrite <- Hw, <- Hh.
  rewrite (fold_left_pointwise (blockStep a b) (blockStep b a)); [reflexivity|].
  intros [total count] xy. unfold blockStep.
  now rewrite getBlockStats_sym.
Qed.

Lemma computeSSIM_sym_witness :
  computeSSIM img2x2 img2x2_dark = computeSSIM img2x2_dark img2x2.
Proof. exact (computeSSIM_sym img2x2 img2x2_dark eq_refl eq_refl). Defined.

Lemma pixel_sameRed a d d' ij :
  sameRed d d' -> pixel d (idxOf a ij) = pixel d' (idxOf a ij).
Proof.
  intros H. unfold pixel, idxOf. rewrite Nat.mul_comm. now rewrite (H _).
Qed.

(** X2. Only the first of the four bytes of a pixel is read: two pairs of
    images of the same size that agree on those bytes score the same. *)
Theorem computeSSIM_red_channel a a' b b' :
  width a = width a' -> height a = height a' ->
  sameRed (data a) (data a') -> sameRed (data b) (data b') ->
  computeSSIM a b = computeSSIM a' b'.
Proof.
  intros Hw Hh Ha Hb.
  assert (Hpa : forall ij, pixel (data a) (idxOf a ij) = pixel (data a') (idxOf a' ij)).
  { intros ij. rewrite <- (idxOf_width a a' ij Hw). now apply pixel_sameRed. }
  assert (Hpb : forall ij, pixel (data b) (idxOf a ij) = pixel (data b') (idxOf a' ij)).
  { intros ij. rewrite <- (idxOf_width a a' ij Hw). now apply pixel_sameRed. }
  assert (Hblock : forall x y, getBlockStats a b x y = getBlockStats a' b' x y).
  { intros x y. unfold getBlockStats. rewrite <- Hw, <- Hh.
    rewrite (fold_left_pointwise (sumStep a b) (sumStep a' b')).
    2:{ intros [[m1 m2] n] ij. unfold sumStep. now rewrite Hpa, Hpb. }
    destruct (fold_left (sumStep a' b') _ _) as [[p q] n].
    rewrite (fold_left_pointwise
               (centredStep a b (JS.div p (JS.ofNat n)) (JS.div q (JS.ofNat n)))
               (centredStep a' b' (JS.div p (JS.ofNat n)) (JS.div q (JS.ofNat n)))).
    2:{ intros [[s1 s2] s12] ij. unfold centredStep. now rewrite Hpa, Hpb. }
    reflexivity. }
  unfold computeSSIM, blocks. rewrite <- Hw, <- Hh.
  rewrite (fold_left_pointwise (blockStep a b) (blockStep a' b')); [reflexivity|].
  intros [total count] xy. unfold blockStep. now rewrite Hblock.
Qed.

Lemma computeSSIM_red_channel_witness :
  computeSSIM img2x2 img2x2_dark = computeSSIM img2x2_tinted img2x2_dark.
Proof.
  apply computeSSIM_red_channel; try reflexivity.
  - intros [|[|[|[|k]]]]; try reflexivity.
    cbn [data img2x2 img2x2_tinted].
    rewrite !(proj2 (nth_error_None _ _)); [reflexivity| |]; simpl; lia.
  - intros k. reflexivity.
Defined.

(** * Further properties of the matcher *)

Lemma ge_trans a b c : JS.ge a b = true -> JS.ge b c = true -> JS.ge a c = true.
Proof.
  destruct a as [|s|p], b as [|t|q], c as [|u|r]; simpl; try congruence;
    try (destruct s); try (destruct t); try (destruct u); simpl; try congruence.
  rewrite !Qc_ge_spec. intros H1 H2. eapply Qcle_trans; eassumption.
Qed.

Lemma bestMatchOf_member capture roster e s :
  bestMatchOf capture roster = Some (e, s) ->
  In e roster /\ s = scoreOf capture e.
Proof.
  revert e s. induction roster as [|x l IH] using rev_ind; intros e s.
  - discriminate.
  - rewrite bestMatchOf_snoc. unfold bestStep. fold (scoreOf capture x).
    destruct (bestMatchOf capture l) as [[e0 s0]|].
    + destruct (JS.gt (scoreOf capture x) s0).
      * intros [= <- <-]. split; [apply in_or_app; right; now left | reflexivity].
      * intros [= <- <-]. destruct (IH e0 s0 eq_refl) as [Hin Hs].
        split; [apply in_or_app; now left | exact Hs].
    + intros [= <- <-]. split; [apply in_or_app; right; now left | reflexivity].
Qed.

(** X3. A posted match always names an employee of the roster whose own score
    reaches the threshold, and only the attendance mode posts one. *)
Theorem match_is_sound mode roster capture emp img :
  onSamplesAcquired mode roster capture
  = Some (fingerprint_attendance_match emp img) ->
  mode = attendance /\ In emp roster /\ img = capture /\
  JS.ge (scoreOf capture emp) THRESHOLD = true.
Proof.
  unfold onSamplesAcquired. destruct mode; try discriminate.
  destruct roster as [|x l]; [discriminate|].
  destruct (bestMatchOf capture (x :: l)) as [[e s]|] eqn:Hb; [|discriminate].
  destruct (JS.ge s THRESHOLD) eqn:Hge; [|discriminate].
  intros [= <- <-]. apply bestMatchOf_member in Hb. destruct Hb as [Hin ->].
  auto.
Qed.

Lemma match_is_sound_witness :
  In emp_same [emp_dark; emp_same; emp_twin] /\
  JS.ge (scoreOf img2x2 emp_same) THRESHOLD = true.
Proof.
  destruct (match_is_sound attendance [emp_dark; emp_same; emp_twin] img2x2
              emp_same img2x2) as (_ & Hin & _ & Hge).
  - vm_compute. reflexivity.
  - split; assumption.
Defined.

Lemma scoreOf_same_bytes capture emp :
  regularImage capture -> data (biometric_data emp) = data capture ->
  scoreOf capture emp = JS.Num 1.
Proof.
  intros (Hw & Hh & Hlen & Hreg) Hd. unfold scoreOf, compareFingerprintSSIM.
  change (computeSSIM capture (biometric_data emp))
    with (computeSSIM capture
            (mkImageData (width capture) (height capture)
                         (data (biometric_data emp)))).
  rewrite Hd. destruct capture as [w h d]. now apply computeSSIM_self.
Qed.

(** X4. A capture whose bytes equal an enrolled template is never answered
    with [no_match]: when no score is NaN, a match is posted for an
    employee of the roster scoring at least 1. *)
Theorem enrolled_template_accepted capture roster emp :
  regularImage capture -> In emp roster ->
  data (biometric_data emp) = data capture ->
  (forall e, In e roster -> scoreOf capture e <> JS.NaN) ->
  exists m, In m roster /\
    JS.ge (scoreOf capture m) (JS.Num 1) = true /\
    onSamplesAcquired attendance roster capture
    = Some (fingerprint_attendance_match m capture).
Proof.
  intros Hreg Hin Hd Hnum.
  assert (Hne : roster <> []) by (intros ->; contradiction).
  destruct (bestMatchOf_first_max capture roster Hne Hnum)
    as (i & m & Hi & Hbest & Hmax & _).
  pose proof (Hmax emp Hin) as Hge.
  rewrite (scoreOf_same_bytes capture emp Hreg Hd) in Hge.
  exists m. split; [eapply nth_error_In; eassumption|]. split; [exact Hge|].
  unfold onSamplesAcquired. destruct roster as [|x l]; [congruence|].
  rewrite Hbest.
  assert (Hth : JS.ge (scoreOf capture m) THRESHOLD = true).
  { apply (ge_trans _ (JS.Num 1)); [exact Hge | reflexivity]. }
  now rewrite Hth.
Qed.

Lemma enrolled_template_accepted_witness :
  exists m, In m [emp_dark; emp_same] /\
    JS.ge (scoreOf img2x2 m) (JS.Num 1) = true /\
    onSamplesAcquired attendance [emp_dark; emp_same] img2x2
    = Some (fingerprint_attendance_match m img2x2).
Proof.
  apply (enrolled_template_accepted img2x2 [emp_dark; emp_same] emp_same).
  - unfold regularImage. simpl. repeat split; try lia.
  - right; now left.
  - reflexivity.
  - intros e [<-|[<-|[]]]; vm_compute; discriminate.
Defined.

(** * Further properties of the attendance sessions *)

Lemma freshId_not_in t : ~ In (freshId t) (map id t).
Proof.
  intros H. apply in_map_iff in H. destruct H as (r & Heq & Hr).
  apply id_lt_freshId in Hr. lia.
Qed.

(** The fold of [latestFirst] ends on a row of the list with the greatest
    [check_in]. *)
Lemma latest_fold rest : forall best,
  let r := fold_left
             (fun best x => if check_in best <? check_in x then x else best)
             rest best in
  (r = best \/ In r rest) /\ check_in best <= check_in r /\
  (forall x, In x rest -> check_in x <= check_in r).
Proof.
  induction rest as [|y rest IH]; intros best; cbn [fold_left].
  - repeat split; auto; try lia. intros x [].
  - destruct (Z.ltb_spec (check_in best) (check_in y)) as [Hlt|Hge].
    + destruct (IH y) as (Hin & Hle & Hall). repeat split.
      * right. destruct Hin as [->|Hin]; [now left | now right].
      * lia.
      * intros x [<-|Hx]; [exact Hle | now apply Hall].
    + destruct (IH best) as (Hin & Hle & Hall). repeat split.
      * destruct Hin as [Hin|Hin]; [now left | right; now right].
      * exact Hle.
      * intros x [<-|Hx]; [lia | now apply Hall].
Qed.

Lemma latestFirst_spec rows :
  rows <> [] ->
  exists r, latestFirst rows = [r] /\ In r rows /\
            forall x, In x rows -> check_in x <= check_in r.
Proof.
  destruct rows as [|b rest]; [congruence|]. intros _.
  destruct (latest_fold rest b) as (Hin & Hle & Hall).
  eexists. split; [reflexivity|]. split.
  - destruct Hin as [->|Hin]; [now left | now right].
  - intros x [<-|Hx]; [exact Hle | now apply Hall].
Qed.

Lemma updateCheckOut_split l1 r l2 out total :
  NoDup (map id (l1 ++ r :: l2)) ->
  updateCheckOut (id r) out total (l1 ++ r :: l2)
  = l1 ++ mkAttendance (id r) (employee_id r) (check_in r)
                       (Some out) (Some total) checked_out :: l2.
Proof.
  intros Hnd. rewrite map_app in Hnd. cbn [map] in Hnd.
  pose proof (NoDup_remove_2 _ _ _ Hnd) as Hnot.
  unfold updateCheckOut. rewrite map_app. cbn [map]. rewrite Nat.eqb_refl.
  fold (updateCheckOut (id r) out total l1).
  fold (updateCheckOut (id r) out total l2).
  rewrite !updateCheckOut_absent; [reflexivity| |].
  - intros x Hx Heq. apply Hnot, in_or_app. right.
    rewrite <- Heq. now apply in_map.
  - intros x Hx Heq. apply Hnot, in_or_app. left.
    rewrite <- Heq. now apply in_map.
Qed.

(** X6. With unique keys, a check-out changes exactly one row: the open
    session of the person with the greatest [check_in]; every other row,
    of this person or another, stays as it was. *)
Theorem checkOut_closes_latest e now t :
  NoDup (map id t) -> openRows e t <> [] ->
  exists l1 r l2,
    t = l1 ++ r :: l2 /\ employee_id r = e /\ isOpen r /\
    (forall x, In x t -> employee_id x = e -> isOpen x ->
               check_in x <= check_in r) /\
    markAttendance e TCheckOut now t
    = (Returned true, l1 ++ closedAt now r :: l2).
Proof.
  intros Hnd Hne.
  destruct (latestFirst_spec _ Hne) as (r & Hl & Hin & Hmax).
  apply In_openRows in Hin. destruct Hin as (Hin & He & Hopen).
  destruct (in_split _ _ Hin) as (l1 & l2 & ->).
  exists l1, r, l2. repeat split; try assumption.
  - intros x Hx Hxe Hxo. apply Hmax, In_openRows. auto.
  - unfold markAttendance. rewrite Hl. cbn [maybeSingle fst].
    rewrite updateCheckOut_split by exact Hnd. reflexivity.
Qed.

Lemma checkOut_closes_latest_witness :
  markAttendance "a" TCheckOut 120000 ex_two
  = (Returned true,
     [mkAttendance 1 "a" 0 (Some 120000) (Some (hoursOfMinutes 2)) checked_out;
      mkAttendance 2 "b" 1000 None None checked_in]).
Proof.
  assert (Hnd : NoDup (map id ex_two)).
  { repeat constructor; simpl; intuition discriminate. }
  assert (Hne : openRows "a" ex_two <> []) by discriminate.
  destruct (checkOut_closes_latest "a" 120000 ex_two Hnd Hne)
    as (l1 & r & l2 & _ & _ & _ & _ & _).
  reflexivity.
Defined.

(** X7. A closed session does not end the day: after check-in and check-out a
    new check-in is accepted and opens a second session. *)
Theorem checkIn_again_after_checkOut e t1 t2 t3 t :
  openRows e t = [] ->
  let closed := snd (markAttendance e TCheckOut t2
                       (snd (markAttendance e TCheckIn t1 t))) in
  closed = t ++ [closedAt t2 (mkAttendance (freshId t) e t1 None None checked_in)] /\
  markAttendance e TCheckIn t3 closed
  = (Returned true,
     closed ++ [mkAttendance (freshId closed) e t3 None None checked_in]).
Proof.
  intros H closed. subst closed.
  destruct (checkIn_then_checkOut e t1 t2 t H) as [Hin Hout].
  rewrite Hin. cbn [snd]. rewrite Hout. cbn [snd].
  split; [reflexivity|].
  unfold markAttendance. rewrite openRows_closed_last; [reflexivity|exact H|discriminate].
Qed.

Lemma checkIn_again_after_checkOut_witness :
  List.length (snd (markAttendance "a" TCheckIn 7200000
    (snd (markAttendance "a" TCheckOut 3600000
       (snd (markAttendance "a" TCheckIn 0 [])))))) = 2%nat.
Proof.
  destruct (checkIn_again_after_checkOut "a" 0 3600000 7200000 [] eq_refl)
    as [_ ->].
  reflexivity.
Defined.

(** X9. A manual entry counts as an open session for the scanner: the next
    scanned check-in of that person is refused, and a scanned check-out
    closes the manual entry. *)
Theorem manual_entry_then_scanner trim emp img now1 now2 t :
  trim (emp_id emp) <> ""%string -> openRows (emp_id emp) t = [] ->
  let entry := mkAttendance (freshId t) (emp_id emp) now1 None None manual_checkin in
  handleManualEntry trim (emp_id emp) now1 t
  = ("Manual Entry"%string, t ++ [entry]) /\
  handler (Some TCheckIn) true (fingerprint_attendance_match emp img) now2
          (t ++ [entry])
  = (Some "Already Checked In"%string, t ++ [entry]) /\
  handler (Some TCheckOut) true (fingerprint_attendance_match emp img) now2
          (t ++ [entry])
  = (Some "Checked Out"%string, t ++ [closedAt now2 entry]).
Proof.
  intros Htrim Hopen entry.
  assert (Hrows : openRows (emp_id emp) (t ++ [entry]) = [entry]).
  { rewrite openRows_app, Hopen. unfold openRows. cbn [filter app].
    subst entry. cbn [employee_id check_out is_null].
    now rewrite String.eqb_refl. }
  split; [|split].
  - unfold handleManualEntry.
    destruct (String.eqb_spec (trim (emp_id emp)) ""); [contradiction|reflexivity].
  - unfold handler. now rewrite Hrows.
  - unfold handler. rewrite Hrows. cbn [latestFirst fold_left maybeSingle fst].
    f_equal.
    change (t ++ [entry]) with (t ++ [mkAttendance (freshId t) (emp_id emp)
                                      now1 None None manual_checkin]).
    unfold updateCheckOut. rewrite map_app.
    fold (updateCheckOut (id entry) now2
            (hoursOfMinutes (diffMinutes now2 (check_in entry))) t).
    rewrite updateCheckOut_absent.
    + subst entry. cbn [map id]. now rewrite Nat.eqb_refl.
    + intros x Hx Heq. apply id_lt_freshId in Hx. subst entry. cbn [id] in Heq. lia.
Qed.

Lemma manual_entry_then_scanner_witness :
  fst (handler (Some TCheckIn) true (fingerprint_attendance_match emp_same img2x2)
         5000 (snd (handleManualEntry (fun s => s) "e1" 0 [])))
  = Some "Already Checked In"%string.
Proof.
  destruct (manual_entry_then_scanner (fun s => s) emp_same img2x2 0 5000 [])
    as (_ & H & _); [discriminate | reflexivity |].
  exact (f_equal fst H).
Defined.

(** X10. The check-in guard asks for a single row: once a person has two open
    sessions, as after two manual entries, the query reports an error, the
    answer is read as "none" and the next check-in is accepted. *)
Theorem manual_entries_defeat_guard trim emp img now1 now2 now3 t :
  trim (emp_id emp) <> ""%string ->
  let t2 := snd (handleManualEntry trim (emp_id emp) now2
                   (snd (handleManualEntry trim (emp_id emp) now1 t))) in
  (2 <= List.length (openRows (emp_id emp) t2))%nat /\
  markAttendance (emp_id emp) TCheckIn now3 t2
  = (Returned true, insertCheckIn (emp_id emp) now3 t2) /\
  handler (Some TCheckIn) true (fingerprint_attendance_match emp img) now3 t2
  = (Some "Checked In"%string, insertCheckIn (emp_id emp) now3 t2).
Proof.
  intros Htrim t2. subst t2. unfold handleManualEntry.
  destruct (String.eqb_spec (trim (emp_id emp)) ""); [contradiction|].
  cbn [snd].
  set (r1 := mkAttendance (freshId t) (emp_id emp) now1 None None manual_checkin).
  set (r2 := mkAttendance (freshId (t ++ [r1])) (emp_id emp) now2 None None
                          manual_checkin).
  assert (Hrows : openRows (emp_id emp) ((t ++ [r1]) ++ [r2])
                  = openRows (emp_id emp) t ++ [r1; r2]).
  { rewrite !openRows_app, <- app_assoc. f_equal.
    unfold openRows. cbn [filter app]. subst r1 r2.
    cbn [employee_id check_out is_null]. now rewrite String.eqb_refl. }
  assert (Hnone : fst (maybeSingle (openRows (emp_id emp) ((t ++ [r1]) ++ [r2])))
                  = None).
  { rewrite Hrows. destruct (openRows (emp_id emp) t) as [|x [|y l]]; reflexivity. }
  split; [|split].
  - rewrite Hrows, length_app. simpl. lia.
  - unfold markAttendance. now rewrite Hnone.
  - unfold handler. now rewrite Hnone.
Qed.

Lemma manual_entries_defeat_guard_witness :
  fst (markAttendance "e1" TCheckIn 9
         (snd (handleManualEntry (fun s => s) "e1" 2
                 (snd (handleManualEntry (fun s => s) "e1" 1 [])))))
  = Returned true.
Proof.
  destruct (manual_entries_defeat_guard (fun s => s) emp_same img2x2 1 2 9 [])
    as (_ & H & _); [discriminate|].
  exact (f_equal fst H).
Defined.

(** * Alerts *)

Lemma includes_In ids x : includes ids x = true <-> In x ids.
Proof.
  unfold includes. rewrite existsb_exists. split.
  - intros (y & Hy & Heq). apply String.eqb_eq in Heq. now subst.
  - intros H. exists x. split; [exact H | apply String.eqb_refl].
Qed.

Lemma dayKey_endOfDayIso tz d : dayKey tz (endOfDayIso tz d) = dayKey tz d.
Proof.
  unfold endOfDayIso. rewrite startOfDayIso_dayKey. unfold dayKey, msPerDay.
  symmetry. apply (Z.div_unique_pos _ _ _ (86400000 - 1)); lia.
Qed.

Lemma window_bounds tz a b :
  dayKey tz a = dayKey tz b ->
  startOfDayIso tz b <= a <= endOfDayIso tz b.
Proof.
  intros H. unfold endOfDayIso. rewrite startOfDayIso_dayKey, <- H.
  unfold dayKey, msPerDay.
  pose proof (Z.div_mod (a + tz) 86400000 ltac:(lia)).
  pose proof (Z.mod_pos_bound (a + tz) 86400000 ltac:(lia)). lia.
Qed.

Lemma In_checkedInToday tz now t r :
  In r (checkedInToday tz now t)
  <-> In r t /\ startOfDayIso tz now <= check_in r <= endOfDayIso tz now.
Proof.
  unfold checkedInToday. rewrite filter_In, andb_true_iff, Z.leb_le, Z.leb_le.
  tauto.
Qed.

(** X11. Once the scanner has checked a person in, the person is no longer
    among the missed check-ins computed at any instant of the same day. *)
Theorem checkIn_clears_missed_alert tz employees emp img now later t :
  openRows (emp_id emp) t = [] -> dayKey tz now = dayKey tz later ->
  ~ In emp (loadMissedAlerts tz employees later
              (snd (handler (Some TCheckIn) true
                      (fingerprint_attendance_match emp img) now t))).
Proof.
  intros Hopen Hday Hin. unfold handler in Hin. rewrite Hopen in Hin.
  cbn [maybeSingle fst snd] in Hin.
  unfold loadMissedAlerts in Hin. apply filter_In in Hin.
  destruct Hin as [_ Hneg]. apply negb_true_iff in Hneg.
  assert (Hyes : includes
            (map employee_id
               (checkedInToday tz later (insertCheckIn (emp_id emp) now t)))
            (emp_id emp) = true).
  { apply includes_In, in_map_iff.
    exists (mkAttendance (freshId t) (emp_id emp) now None None checked_in).
    split; [reflexivity|]. apply In_checkedInToday. split.
    - unfold insertCheckIn. apply in_or_app. right. now left.
    - cbn [check_in]. now apply window_bounds. }
  congruence.
Qed.

Lemma checkIn_clears_missed_alert_witness :
  ~ In emp_same (loadMissedAlerts 0 [emp_same; emp_dark] 50000
       (snd (handler (Some TCheckIn) true
               (fingerprint_attendance_match emp_same img2x2) 1000 []))).
Proof.
  apply checkIn_clears_missed_alert; reflexivity.
Defined.

(** X12. The two alert computations of the page agree on the missed check-ins;
    nobody is listed both as a missed check-in and as a missed check-out;
    and the missed check-outs are the employees with a row of today whose
    [check_out] is null. *)
Theorem alert_lists tz employees now t :
  fst (showAlerts tz employees now t) = loadMissedAlerts tz employees now t /\
  (forall emp, In emp (snd (showAlerts tz employees now t)) ->
               ~ In emp (fst (showAlerts tz employees now t))) /\
  (forall emp, In emp (snd (showAlerts tz employees now t)) <->
     In emp employees /\
     exists r, In r (checkedInToday tz now t) /\
               employee_id r = emp_id emp /\ isOpen r).
Proof.
  split; [reflexivity|]. split.
  - intros emp Hout Hmiss. unfold showAlerts in *. cbn [fst snd] in *.
    apply filter_In in Hout. destruct Hout as [_ Hout].
    apply filter_In in Hmiss. destruct Hmiss as [_ Hmiss].
    apply negb_true_iff in Hmiss.
    apply includes_In, in_map_iff in Hout.
    destruct Hout as (r & Heq & Hr). apply filter_In in Hr.
    assert (Hyes : includes (map employee_id (checkedInToday tz now t))
                            (emp_id emp) = true).
    { apply includes_In, in_map_iff. exists r. tauto. }
    congruence.
  - intros emp. unfold showAlerts. cbn [snd].
    rewrite filter_In, includes_In, in_map_iff. split.
    + intros (Hin & r & Heq & Hr). apply filter_In in Hr.
      split; [exact Hin|]. exists r. repeat split; try tauto.
      unfold isOpen. destruct (check_out r); [destruct Hr; discriminate|reflexivity].
    + intros (Hin & r & Hr & Heq & Hopen). split; [exact Hin|].
      exists r. split; [exact Heq|]. apply filter_In. split; [exact Hr|].
      unfold isOpen in Hopen. now rewrite Hopen.
Qed.

(** * The day-scoped toggle *)

Lemma filter_map_same {A} (p : A -> bool) (f : A -> A) (l : list A) :
  (forall x, p (f x) = p x) -> filter p (map f l) = map f (filter p l).
Proof.
  intros H. induction l as [|x l IH]; [reflexivity|].
  cbn [map filter]. rewrite H, IH. now destruct (p x).
Qed.

Lemma todayRows_update tz e now i out total t :
  todayRows tz e now (updateCheckOut i out total t)
  = updateCheckOut i out total (todayRows tz e now t).
Proof.
  unfold todayRows, updateCheckOut. apply filter_map_same.
  intros r. now destruct (Nat.eqb (id r) i).
Qed.

Lemma window_dayKey tz a b :
  startOfDayIso tz b <= a < endOfDayIso tz b -> dayKey tz a = dayKey tz b.
Proof.
  unfold endOfDayIso. rewrite startOfDayIso_dayKey. unfold dayKey, msPerDay.
  intros H. symmetry.
  apply (Z.div_unique_pos _ _ _ (a + tz - 86400000 * ((b + tz) / 86400000))); lia.
Qed.

Lemma onePerDay_step tz e now t :
  onePerDay tz t -> onePerDay tz (snd (markAttendanceForEmployeeId tz e now t)).
Proof.
  intros H. unfold markAttendanceForEmployeeId.
  destruct (todayRows tz e now t) as [|r [|r' l]] eqn:Hq; cbn [maybeSingle snd].
  - intros e' now'. unfold insertCheckIn. rewrite todayRows_app, length_app.
    specialize (H e' now'). unfold todayRows at 2. cbn [filter employee_id check_in].
    destruct (String.eqb_spec e e') as [<-|Hne]; cbn [andb]; [|simpl; lia].
    destruct (Z.leb_spec (startOfDayIso tz now') now) as [H1|H1]; cbn [andb];
      [|simpl; lia].
    destruct (Z.ltb_spec now (endOfDayIso tz now')) as [H2|H2]; [|simpl; lia].
    rewrite <- (todayRows_same_day tz e now now') by (apply window_dayKey; lia).
    rewrite Hq. simpl. lia.
  - destruct (check_out r); cbn [snd]; [exact H|].
    intros e' now'. rewrite todayRows_update. unfold updateCheckOut.
    rewrite length_map. apply H.
  - exact H.
Qed.

Lemma onePerDay_run tz scans : onePerDay tz (toggleRun tz scans).
Proof.
  unfold toggleRun. assert (H : onePerDay tz []) by (intros e now; simpl; lia).
  revert H. generalize (@nil Attendance).
  induction scans as [|[e now] scans IH]; intros t H; cbn [fold_left]; [exact H|].
  apply IH. cbn [fst snd]. now apply onePerDay_step.
Qed.

(** X13. Scans handled by the toggle alone never leave two rows of a person in
    the window of a day, so its single-row query never fails: the toggle
    never answers "Error" on a table it has built. *)
Theorem toggle_never_errors tz scans e now :
  onePerDay tz (toggleRun tz scans) /\
  fst (markAttendanceForEmployeeId tz e now (toggleRun tz scans))
  <> "Error"%string.
Proof.
  pose proof (onePerDay_run tz scans) as H. split; [exact H|].
  specialize (H e now). unfold markAttendanceForEmployeeId.
  destruct (todayRows tz e now (toggleRun tz scans)) as [|r [|r' l]];
    cbn [maybeSingle fst].
  - discriminate.
  - destruct (check_out r); discriminate.
  - simpl in H. lia.
Qed.

(** X14. A check-in recorded at the last millisecond of a day lies outside the
    toggle's own window of that day ([check_in < 23:59:59.999]): the next
    scan of that day checks the person in a second time. *)
Theorem toggle_last_millisecond tz e d later t :
  todayRows tz e d t = [] -> dayKey tz later = dayKey tz d ->
  let m := endOfDayIso tz d in
  let a := markAttendanceForEmployeeId tz e m t in
  let b := markAttendanceForEmployeeId tz e later (snd a) in
  a = ("Checked In"%string, insertCheckIn e m t) /\
  b = ("Checked In"%string, insertCheckIn e later (insertCheckIn e m t)).
Proof.
  intros Hq Hday m a b. subst b a.
  assert (Hm : todayRows tz e m t = []).
  { subst m. rewrite (todayRows_same_day tz e _ d); [exact Hq|].
    apply dayKey_endOfDayIso. }
  assert (Ha : markAttendanceForEmployeeId tz e m t
               = ("Checked In"%string, insertCheckIn e m t)).
  { unfold markAttendanceForEmployeeId. now rewrite Hm. }
  rewrite Ha. split; [reflexivity|]. cbn [snd].
  unfold markAttendanceForEmployeeId.
  assert (Hnone : todayRows tz e later (insertCheckIn e m t) = []).
  { unfold insertCheckIn. rewrite todayRows_app.
    rewrite (todayRows_same_day tz e later d t Hday), Hq.
    unfold todayRows. cbn [filter employee_id check_in app].
    assert (Hend : endOfDayIso tz later = m).
    { subst m. unfold endOfDayIso. now rewrite !startOfDayIso_dayKey, Hday. }
    rewrite Hend, Z.ltb_irrefl, andb_false_r. reflexivity. }
  now rewrite Hnone.
Qed.

Lemma toggle_last_millisecond_witness :
  List.length (snd (markAttendanceForEmployeeId 0 "a" 86399999
                 (snd (markAttendanceForEmployeeId 0 "a" 86399999 [])))) = 2%nat.
Proof.
  destruct (toggle_last_millisecond 0 "a" 0 86399999 [] eq_refl eq_refl)
    as [Ha Hb].
  cbv zeta in Hb. change (endOfDayIso 0 0) with 86399999 in Hb.
  rewrite Hb. reflexivity.
Defined.

Lemma alert_lists_witness :
  ~ In emp_same (fst (showAlerts 0 [emp_same; emp_dark] 5000
                        [mkAttendance 1 "e1" 1000 None None checked_in])) /\
  In emp_same (snd (showAlerts 0 [emp_same; emp_dark] 5000
                      [mkAttendance 1 "e1" 1000 None None checked_in])).
Proof.
  assert (H : In emp_same (snd (showAlerts 0 [emp_same; emp_dark] 5000
                     [mkAttendance 1 "e1" 1000 None None checked_in])))
    by (left; reflexivity).
  split; [|exact H].
  exact (proj1 (proj2 (alert_lists 0 [emp_same; emp_dark] 5000
                         [mkAttendance 1 "e1" 1000 None None checked_in]))
               emp_same H).
Defined.

Lemma toggle_never_errors_witness :
  fst (markAttendanceForEmployeeId 0 "a" 9000
         (toggleRun 0 ex_scans))
  <> "Error"%string.
Proof.
  exact (proj2 (toggle_never_errors 0 ex_scans "a" 9000)).
Defined.

(** * Hours of the employee portal *)

Lemma Qcle_Q2Qc a b : (a <= b)%Q -> (Q2Qc a <= Q2Qc b)%Qc.
Proof. intros H. unfold Qcle, Q2Qc. cbn [this]. now rewrite !Qred_correct. Qed.

Lemma roundTenth_mono x y : (x <= y)%Qc -> (roundTenth x <= roundTenth y)%Qc.
Proof.
  intros H. unfold roundTenth. apply Qcle_Q2Qc.
  unfold Qle. cbn [Qnum Qden]. apply Z.mul_le_mono_nonneg_r; [lia|].
  unfold mathRound. apply Qfloor_resp_le.
  unfold Qcle, Qcmult, Q2Qc in *. cbn [this] in *. rewrite !Qred_correct.
  apply Qplus_le_l. apply Qmult_le_compat_r; [exact H | discriminate].
Qed.

Lemma computeHoursForRecord_nonneg r :
  (forall out, check_out r = Some out -> check_in r <= out) ->
  (0 <= computeHoursForRecord r)%Qc.
Proof.
  intros H. unfold computeHoursForRecord.
  destruct (check_out r) as [out|]; [|apply Qcle_refl].
  specialize (H out eq_refl).
  assert (H0 : roundTenth 0 = 0%Qc) by (apply Qc_is_canon; reflexivity).
  rewrite <- H0. apply roundTenth_mono.
  apply Qc_div_nonneg; [|reflexivity].
  change 0%Qc with (Q2Qc (inject_Z 0)). apply Qcle_Q2Qc.
  rewrite <- Zle_Qle. lia.
Qed.

Lemma hoursStep_le todayStart weekAgo records :
  weekAgo <= todayStart ->
  (forall r out, In r records -> check_out r = Some out -> check_in r <= out) ->
  forall td wk, (td <= wk)%Qc ->
  (fst (fold_left (hoursStep todayStart weekAgo) records (td, wk))
   <= snd (fold_left (hoursStep todayStart weekAgo) records (td, wk)))%Qc.
Proof.
  intros Hw. induction records as [|r records IH]; intros Hrec td wk Hle;
    cbn [fold_left]; [exact Hle|].
  assert (Hrest : forall r' out, In r' records -> check_out r' = Some out ->
                                 check_in r' <= out)
    by (intros r' out Hin; apply Hrec; now right).
  unfold hoursStep at 2 4.
  destruct (check_out r) as [out|] eqn:Hout; [|now apply IH].
  pose proof (computeHoursForRecord_nonneg r) as Hpos.
  rewrite Hout in Hpos.
  assert (H0 : (0 <= computeHoursForRecord r)%Qc).
  { apply Hpos. intros o [= <-]. apply (Hrec r out); [now left | exact Hout]. }
  apply IH; [exact Hrest|].
  destruct (Z.leb_spec todayStart (check_in r)) as [H1|H1];
    destruct (Z.leb_spec weekAgo (check_in r)) as [H2|H2]; try lia.
  - apply Qcplus_le_compat; [exact Hle | apply Qcle_refl].
  - rewrite <- (Qcplus_0_r td). apply Qcplus_le_compat; assumption.
  - exact Hle.
Qed.

(** X15. When no record ends before it starts, the hours shown for today never
    exceed the hours shown for the week. *)
Theorem hours_today_le_week tz records now :
  (forall r out, In r records -> check_out r = Some out -> check_in r <= out) ->
  (fst (recalcAndSetHours tz records now)
   <= snd (recalcAndSetHours tz records now))%Qc.
Proof.
  intros Hrec. unfold recalcAndSetHours.
  assert (Hw : now - 6 * msPerDay <= startOfDayIso tz now).
  { unfold startOfDayIso, msPerDay.
    pose proof (Z.mod_pos_bound (now + tz) 86400000 ltac:(lia)). lia. }
  pose proof (hoursStep_le _ _ records Hw Hrec (Q2Qc 0) (Q2Qc 0) (Qcle_refl _)) as H.
  destruct (fold_left _ records _) as [td wk]. cbn [fst snd] in *.
  now apply roundTenth_mono.
Qed.

Lemma hours_today_le_week_witness :
  (fst (recalcAndSetHours 0 ex_week 700000000)
   <= snd (recalcAndSetHours 0 ex_week 700000000))%Qc.
Proof.
  apply hours_today_le_week.
  intros r out [<-|[<-|[<-|[]]]] [= <-]; vm_compute; discriminate.
Defined.

(** * The quick-attendance widget *)

Lemma find_fetchAttendance tz d e t :
  find (fun r => String.eqb (employee_id r) e) (fetchAttendance tz d t)
  = hd_error (todayRows tz e d t).
Proof.
  unfold fetchAttendance, todayRows.
  induction t as [|r t IH]; [reflexivity|]. cbn [filter].
  destruct (String.eqb (employee_id r) e) eqn:He,
           (startOfDayIso tz d <=? check_in r),
           (check_in r <? endOfDayIso tz d);
    cbn [andb find hd_error]; rewrite ?He; auto.
Qed.

(** [toFixed(2)] moves a number by at most half a hundredth. *)
Lemma toFixed2_close (x : Qc) :
  (Qabs (this (toFixed2 x) - this x) <= 1 # 200)%Q.
Proof.
  unfold toFixed2. cbn [this Q2Qc]. rewrite Qred_correct.
  set (n := Qfloor (Qabs (this x) * 100 + (1 # 2))).
  assert (Hlo : (inject_Z n <= Qabs (this x) * 100 + (1 # 2))%Q)
    by apply Qfloor_le.
  assert (Hhi : (Qabs (this x) * 100 + (1 # 2) < inject_Z (n + 1))%Q)
    by apply Qlt_floor.
  rewrite inject_Z_plus in Hhi. change (inject_Z 1) with 1%Q in Hhi.
  assert (Hn : forall z : Z, (z # 100 == inject_Z z * (1 # 100))%Q).
  { intros z. unfold Qeq, Qmult, inject_Z. cbn. lia. }
  unfold JS.qneg, Qccompare.
  destruct (Qcompare_spec (this x) (this (Q2Qc 0))) as [Heq|Hlt|Hgt];
    change (this (Q2Qc 0)) with 0%Q in *.
  - rewrite Hn. rewrite Heq in *. change (Qabs 0) with 0%Q in *.
    apply Qabs_Qle_condition. split; lra.
  - rewrite Hn, inject_Z_opp. rewrite (Qabs_neg (this x)) in Hlo, Hhi by lra.
    apply Qabs_Qle_condition. split; lra.
  - rewrite Hn. rewrite (Qabs_pos (this x)) in Hlo, Hhi by lra.
    apply Qabs_Qle_condition. split; lra.
Qed.

Lemma totalHoursOfMs_close ms :
  (Qabs (this (totalHoursOfMs ms)
         - binary64 (binary64 (inject_Z ms) / 3600000)) <= 1 # 200)%Q.
Proof.
  unfold totalHoursOfMs.
  set (q := binary64 (binary64 (inject_Z ms) / 3600000)).
  pose proof (toFixed2_close (Q2Qc q)) as H.
  assert (Hq : (this (Q2Qc q) == q)%Q) by apply Qred_correct.
  rewrite Hq in H. exact H.
Qed.

(** The hours stored for 54 seconds: 0.015 is not a binary64 number, the
    quotient lies just below it and [toFixed] cuts it to 0.01; 59 seconds
    give 0.02, and eight and a half hours 8.5. *)
Lemma totalHoursOfMs_examples :
  map (fun ms => this (totalHoursOfMs ms)) [54000; 59000; 30600000]
  = [(1 # 100)%Q; (1 # 50)%Q; (17 # 2)%Q].
Proof. vm_compute. reflexivity. Qed.

(** X16. For a person without a row on the day of rendering, the widget shows
    "absent"; its check-in makes it "present", and its check-out after
    that "completed".  The row is closed with the second clock reading
    of the check-out as [check_out]; [total_hours] comes from the first
    reading: the difference in hours as the binary64 quotient, cut to two
    decimals by [toFixed], which lies within half a hundredth of that
    quotient. *)
Theorem widget_cycle tz d e t1 t1' t2 t2' t :
  todayRows tz e d t = [] -> dayKey tz t1 = dayKey tz d ->
  t1 < endOfDayIso tz t1 ->
  let s1 := widgetMarkAttendance tz d e TCheckIn t1 t1' t in
  let s2 := widgetMarkAttendance tz d e TCheckOut t2 t2' s1 in
  getEmployeeStatus (fetchAttendance tz d t) e = absent /\
  getEmployeeStatus (fetchAttendance tz d s1) e = present /\
  getEmployeeStatus (fetchAttendance tz d s2) e = completed /\
  s2 = t ++ [mkAttendance (freshId t) e t1 (Some t2')
               (Some (totalHoursOfMs (t2 - t1))) checked_out] /\
  (Qabs (this (totalHoursOfMs (t2 - t1))
         - binary64 (binary64 (inject_Z (t2 - t1)) / 3600000)) <= 1 # 200)%Q.
Proof.
  intros Hq Hday Hlt s1 s2. subst s2 s1. cbn [widgetMarkAttendance].
  assert (Hrows : todayRows tz e d (insertCheckIn e t1 t)
                  = [mkAttendance (freshId t) e t1 None None checked_in]).
  { unfold insertCheckIn. rewrite todayRows_app, Hq.
    rewrite <- (todayRows_same_day tz e t1 d _ Hday).
    now rewrite todayRows_own. }
  assert (Hs2 : updateCheckOut (freshId t) t2' (totalHoursOfMs (t2 - t1))
                               (insertCheckIn e t1 t)
                = t ++ [mkAttendance (freshId t) e t1 (Some t2')
                          (Some (totalHoursOfMs (t2 - t1))) checked_out])
    by apply updateCheckOut_fresh.
  rewrite Hrows. cbn [latestFirst fold_left id check_in]. cbv zeta. rewrite Hs2.
  unfold getEmployeeStatus. rewrite !find_fetchAttendance, Hq, Hrows.
  split; [reflexivity|]. split; [reflexivity|]. split; [|split; [reflexivity|]].
  - rewrite todayRows_app, Hq. rewrite <- (todayRows_same_day tz e t1 d _ Hday).
    now rewrite todayRows_own.
  - apply totalHoursOfMs_close.
Qed.

Lemma widget_cycle_witness :
  getEmployeeStatus
    (fetchAttendance 0 0
       (widgetMarkAttendance 0 0 "a" TCheckOut 7200000 7200001
          (widgetMarkAttendance 0 0 "a" TCheckIn 3600000 3600000 []))) "a"
  = completed.
Proof.
  destruct (widget_cycle 0 0 "a" 3600000 3600000 7200000 7200001 []
              eq_refl eq_refl eq_refl)
    as (_ & _ & H & _).
  exact H.
Defined.

(** X17. The widget's check-in asks nothing of the table.  After two of them
    on one day the toggle of the employee portal finds two rows where its
    query expects one: it answers "Error" and records nothing. *)
Theorem widget_double_checkIn_blocks_toggle tz d e t1 t1' t2 t2' later t :
  dayKey tz t1 = dayKey tz d -> dayKey tz t2 = dayKey tz d ->
  dayKey tz later = dayKey tz d ->
  t1 < endOfDayIso tz t1 -> t2 < endOfDayIso tz t2 ->
  let s := widgetMarkAttendance tz d e TCheckIn t2 t2'
             (widgetMarkAttendance tz d e TCheckIn t1 t1' t) in
  markAttendanceForEmployeeId tz e later s = ("Error"%string, s).
Proof.
  intros H1 H2 H3 L1 L2 s. subst s. cbn [widgetMarkAttendance].
  unfold markAttendanceForEmployeeId.
  assert (Hrows : exists l x y,
            todayRows tz e later (insertCheckIn e t2 (insertCheckIn e t1 t))
            = l ++ [x; y]).
  { unfold insertCheckIn at 1. rewrite todayRows_app.
    unfold insertCheckIn at 1. rewrite todayRows_app.
    rewrite <- (todayRows_same_day tz e t1 later [_]) by congruence.
    rewrite <- (todayRows_same_day tz e t2 later [_]) by congruence.
    rewrite !todayRows_own by (reflexivity || assumption).
    rewrite <- app_assoc. eexists _, _, _. reflexivity. }
  destruct Hrows as (l & x & y & ->).
  destruct l as [|a [|b l]]; reflexivity.
Qed.

Lemma widget_double_checkIn_blocks_toggle_witness :
  fst (markAttendanceForEmployeeId 0 "a" 9000
         (widgetMarkAttendance 0 0 "a" TCheckIn 2000 2000
            (widgetMarkAttendance 0 0 "a" TCheckIn 1000 1000 [])))
  = "Error"%string.
Proof.
  exact (f_equal fst
           (widget_double_checkIn_blocks_toggle 0 0 "a" 1000 1000 2000 2000 9000 []
              eq_refl eq_refl eq_refl eq_refl eq_refl)).
Defined.

(** * Employee registration *)

Lemma NoDup_snoc {A} (l : list A) (x : A) :
  NoDup l -> ~ In x l -> NoDup (l ++ [x]).
Proof.
  induction l as [|y l IH]; intros Hnd Hnot; cbn [app].
  - constructor; [intros [] | constructor].
  - inversion Hnd as [|? ? Hy Hl]; subst. constructor.
    + intros H. apply in_app_or in H. destruct H as [H|[H|[]]]; [contradiction|].
      apply Hnot. now left.
    + apply IH; [exact Hl|]. intros H. apply Hnot. now right.
Qed.

Lemma byFingerprint_NoDup f employees :
  NoDup (map Form.fingerprint_id employees) ->
  (List.length (Form.byFingerprint f employees) <= 1)%nat.
Proof.
  unfold Form.byFingerprint.
  induction employees as [|r l IH]; cbn [map filter]; intros Hnd; [simpl; lia|].
  inversion Hnd as [|? ? Hnot Hnd']; subst.
  destruct (String.eqb_spec (Form.fingerprint_id r) f) as [<-|Hne];
    [|now apply IH].
  assert (Hnil : filter (fun r0 => String.eqb (Form.fingerprint_id r0)
                                              (Form.fingerprint_id r)) l = []).
  { destruct (filter _ l) as [|x xs] eqn:E; [reflexivity|].
    assert (Hx : In x (filter (fun r0 => String.eqb (Form.fingerprint_id r0)
                                                    (Form.fingerprint_id r)) l))
      by (rewrite E; now left).
    apply filter_In in Hx. destruct Hx as [Hx Heq].
    apply String.eqb_eq in Heq. exfalso. apply Hnot. rewrite <- Heq.
    now apply in_map. }
  rewrite Hnil. simpl. lia.
Qed.

(** X18. Registration keeps fingerprints unique: from a table without two
    equal fingerprints, a submitted form is stored only if it is valid and
    its fingerprint is new, and submitting it again is refused as a
    duplicate without any change. *)
Theorem registration_keeps_fingerprints_unique formData employees :
  NoDup (map Form.fingerprint_id employees) ->
  let res := Form.handleSubmit formData employees in
  NoDup (map Form.fingerprint_id (snd res)) /\
  (fst res = Form.EmployeeRegistered ->
   Form.validateForm formData = true /\
   ~ In (Form.fingerprint_id formData) (map Form.fingerprint_id employees) /\
   snd res = employees ++ [formData] /\
   Form.handleSubmit formData (snd res) = (Form.DuplicateFingerprint, snd res)).
Proof.
  intros Hnd res. subst res. unfold Form.handleSubmit.
  destruct (Form.validateForm formData) eqn:Hv; cbn [negb];
    [|split; [exact Hnd | discriminate]].
  pose proof (byFingerprint_NoDup (Form.fingerprint_id formData) employees Hnd) as Hlen.
  destruct (Form.byFingerprint (Form.fingerprint_id formData) employees)
    as [|x [|y l]] eqn:Hq; cbn [Form.maybeSingle fst snd];
    [|split; [exact Hnd | discriminate] | simpl in Hlen; lia].
  assert (Hnew : ~ In (Form.fingerprint_id formData)
                      (map Form.fingerprint_id employees)).
  { intros Hin. apply in_map_iff in Hin. destruct Hin as (r & Heq & Hr).
    assert (Hf : In r (Form.byFingerprint (Form.fingerprint_id formData) employees)).
    { apply filter_In. split; [exact Hr | now apply String.eqb_eq]. }
    now rewrite Hq in Hf. }
  split.
  - rewrite map_app. cbn [map]. now apply NoDup_snoc.
  - intros _. split; [reflexivity|]. split; [exact Hnew|]. split; [reflexivity|].
    cbn [negb]. unfold Form.byFingerprint. rewrite filter_app.
    fold (Form.byFingerprint (Form.fingerprint_id formData) employees).
    rewrite Hq. cbn [filter app]. now rewrite String.eqb_refl.
Qed.

Lemma registration_keeps_fingerprints_unique_witness :
  Form.handleSubmit Form.ex_form (snd (Form.handleSubmit Form.ex_form []))
  = (Form.DuplicateFingerprint, [Form.ex_form]).
Proof.
  destruct (registration_keeps_fingerprints_unique Form.ex_form [] (NoDup_nil _))
    as [_ H].
  destruct (H eq_refl) as (_ & _ & _ & Hdup). exact Hdup.
Defined.

(** * Shift manager *)

Lemma In_filter_neq x l d :
  In d (filter (fun d => negb (String.eqb d x)) l) <-> In d l /\ d <> x.
Proof.
  rewrite filter_In, negb_true_iff. 
  destruct (String.eqb_spec d x); intuition congruence.
Qed.

(** X19. Clicking an entry toggles its membership and nothing else, and a
    selection without repetitions stays without repetitions. *)
Theorem toggleMember_spec x l :
  NoDup l ->
  NoDup (toggleMember x l) /\
  (In x (toggleMember x l) <-> ~ In x l) /\
  (forall d, d <> x -> (In d (toggleMember x l) <-> In d l)).
Proof.
  intros Hnd. unfold toggleMember.
  destruct (includes l x) eqn:Hinc.
  - apply includes_In in Hinc. split; [now apply NoDup_filter|]. split.
    + split; [|intros Hn; contradiction].
      intros Hx. apply In_filter_neq in Hx. now destruct Hx.
    + intros d Hd. rewrite In_filter_neq. tauto.
  - assert (Hnot : ~ In x l).
    { intros H. apply includes_In in H. congruence. }
    split; [now apply NoDup_snoc|]. split.
    + split; [intros _; exact Hnot|]. intros _. apply in_or_app. right. now left.
    + intros d Hd. rewrite in_app_iff. cbn [In]. intuition congruence.
Qed.

Lemma toggleMember_spec_witness :
  toggleMember "Tue" (toggleMember "Tue" ["Mon"%string]) = ["Mon"%string] /\
  NoDup (toggleMember "Tue" ["Mon"%string]).
Proof.
  split; [reflexivity|].
  apply (toggleMember_spec "Tue" ["Mon"%string]).
  repeat constructor. intros [].
Defined.

Lemma filter_assignments_other i j (xs : list (nat * string)) (ys : list string) :
  i <> j ->
  filter (fun a => Nat.eqb (fst a) j)
         (filter (fun a => negb (Nat.eqb (fst a) i)) xs
          ++ map (fun eid => (i, eid)) ys)
  = filter (fun a => Nat.eqb (fst a) j) xs.
Proof.
  intros Hne. rewrite filter_app.
  assert (Hnew : filter (fun a : nat * string => Nat.eqb (fst a) j)
                        (map (fun eid => (i, eid)) ys) = []).
  { induction ys as [|y ys IH]; [reflexivity|]. cbn [map filter fst].
    destruct (Nat.eqb_spec i j); [contradiction | exact IH]. }
  rewrite Hnew, app_nil_r.
  induction xs as [|[k e] xs IH]; [reflexivity|]. cbn [filter fst].
  destruct (Nat.eqb_spec k i) as [->|Hki]; cbn [negb filter fst].
  - destruct (Nat.eqb_spec i j); [contradiction | exact IH].
  - destruct (Nat.eqb k j); [now rewrite IH | exact IH].
Qed.

Lemma filter_assignments_same i (xs : list (nat * string)) (ys : list string) :
  map snd (filter (fun a => Nat.eqb (fst a) i)
             (filter (fun a => negb (Nat.eqb (fst a) i)) xs
              ++ map (fun eid => (i, eid)) ys))
  = ys.
Proof.
  rewrite filter_app.
  assert (Hold : filter (fun a : nat * string => Nat.eqb (fst a) i)
                        (filter (fun a => negb (Nat.eqb (fst a) i)) xs) = []).
  { induction xs as [|[k e] xs IH]; [reflexivity|]. cbn [filter fst].
    destruct (Nat.eqb k i) eqn:E; cbn [negb filter fst]; [exact IH|].
    now rewrite E. }
  rewrite Hold. cbn [app].
  induction ys as [|y ys IH]; [reflexivity|]. cbn [map filter fst snd].
  rewrite Nat.eqb_refl. cbn [map snd]. now rewrite IH.
Qed.

(** X20. Saving a complete form replaces the employees assigned to the saved
    shift (the edited one, or the new one) by those ticked in the form, in
    order, and leaves the assignments of every other shift as they were;
    editing adds no shift and creating adds one; an incomplete form writes
    nothing. *)
Theorem handleSave_replaces_assignments form editingId st :
  (name form <> ""%string -> start_time form <> ""%string ->
   end_time form <> ""%string -> days_of_week form <> [] ->
   let k := savedKey editingId st in
   let st' := handleSave form editingId st in
   assignedTo k st' = employee_ids form /\
   (forall j, j <> k -> assignedTo j st' = assignedTo j st) /\
   map shift_key (shifts st')
   = match editingId with
     | Some (S _) => map shift_key (shifts st)
     | _ => map shift_key (shifts st) ++ [k]
     end) /\
  (name form = ""%string \/ start_time form = ""%string \/
   end_time form = ""%string \/ days_of_week form = [] ->
   handleSave form editingId st = st).
Proof.
  split.
  - intros Hn Hs He Hd k st'. subst st' k. unfold handleSave, savedKey.
    destruct (String.eqb_spec (name form) ""); [contradiction|].
    destruct (String.eqb_spec (start_time form) ""); [contradiction|].
    destruct (String.eqb_spec (end_time form) ""); [contradiction|].
    destruct (days_of_week form) as [|d ds] eqn:Hdays; [contradiction|].
    cbn [orb List.length Nat.eqb]. unfold assignedTo.
    destruct editingId as [[|i]|]; cbn [shift_assignments shifts].
    + split; [apply filter_assignments_same|]. split.
      * intros j Hj. f_equal. apply filter_assignments_other. congruence.
      * rewrite map_app. reflexivity.
    + split; [apply filter_assignments_same|]. split.
      * intros j Hj. f_equal. apply filter_assignments_other. congruence.
      * rewrite map_map. apply map_ext. intros s.
        now destruct (Nat.eqb (shift_key s) (S i)).
    + split; [apply filter_assignments_same|]. split.
      * intros j Hj. f_equal. apply filter_assignments_other. congruence.
      * rewrite map_app. reflexivity.
  - intros H. unfold handleSave.
    destruct H as [-> | [-> | [-> | ->]]]; cbn [String.eqb orb List.length Nat.eqb];
      rewrite ?orb_true_r; reflexivity.
Qed.

Lemma handleSave_replaces_assignments_witness :
  assignedTo 1 (handleSave ex_shiftForm (Some 1%nat) ex_store)
  = ["e1"%string; "e2"%string] /\
  assignedTo 2 (handleSave ex_shiftForm (Some 1%nat) ex_store) = ["e1"%string].
Proof.
  destruct (proj1 (handleSave_replaces_assignments ex_shiftForm (Some 1%nat)
                     ex_store)) as (H1 & H2 & _); try discriminate.
  split; [exact H1 | exact (H2 2%nat ltac:(discriminate))].
Defined.

(** * From the scanner to the table *)

(** X5. When no employee of the roster scores the threshold against the
    capture, whatever the scanner posts leaves the attendance table of the
    page untouched, in every mode of the scanner and of the page. *)
Theorem unrecognised_scan_writes_nothing mode roster capture msg :
  (forall e, In e roster -> JS.ge (scoreOf capture e) THRESHOLD = false) ->
  onSamplesAcquired mode roster capture = Some msg ->
  forall pageMode visible now t,
    snd (handler pageMode visible msg now t) = t.
Proof.
  intros Hlow Hmsg pageMode visible now t.
  destruct msg as [emp img|img|img].
  - exfalso. unfold onSamplesAcquired in Hmsg.
    destruct mode; try discriminate.
    destruct roster as [|x l]; [discriminate|].
    destruct (bestMatchOf capture (x :: l)) as [[e s]|] eqn:Hb; [|discriminate].
    destruct (JS.ge s THRESHOLD) eqn:Hge; [|discriminate].
    injection Hmsg as <- <-. apply bestMatchOf_member in Hb.
    destruct Hb as [Hin ->]. rewrite (Hlow e Hin) in Hge. discriminate.
  - now destruct pageMode as [[|]|], visible.
  - now destruct pageMode as [[|]|], visible.
Qed.

Lemma unrecognised_scan_writes_nothing_witness :
  snd (handler (Some TCheckIn) true (fingerprint_attendance_no_match img2x2)
         1000 ex_open) = ex_open.
Proof.
  apply (unrecognised_scan_writes_nothing attendance [emp_dark] img2x2).
  - intros e [<-|[]]. vm_compute. reflexivity.
  - vm_compute. reflexivity.
Defined.

(** * Hours of a closed session *)

Lemma hundredths_le a b :
  a <= b -> (Q2Qc (a # 100) <= Q2Qc (b # 100))%Qc.
Proof.
  intros H. apply Qcle_Q2Qc. unfold Qle. cbn [Qnum Qden]. lia.
Qed.

(** X8. For check-outs at or after the check-in, the stored hours are never
    negative and a later check-out never stores fewer hours. *)
Theorem total_hours_monotone t1 t2 t2' :
  t1 <= t2 -> t2 <= t2' ->
  (0 <= hoursOfMinutes (diffMinutes t2 t1))%Qc /\
  (hoursOfMinutes (diffMinutes t2 t1) <= hoursOfMinutes (diffMinutes t2' t1))%Qc.
Proof.
  intros H1 H2. unfold diffMinutes.
  rewrite !Z.quot_div_nonneg by lia.
  assert (Hm : 0 <= (t2 - t1) / 60000) by (apply Z.div_pos; lia).
  assert (Hm' : (t2 - t1) / 60000 <= (t2' - t1) / 60000)
    by (apply Z.div_le_mono; lia).
  rewrite !hoursOfMinutes_hundredths by lia. split.
  - change 0%Qc with (Q2Qc 0).
    assert (H0 : Q2Qc 0 = Q2Qc (0 # 100)) by (apply Qc_is_canon; reflexivity).
    rewrite H0. apply hundredths_le. apply Z.div_pos; lia.
  - apply hundredths_le. apply Z.div_le_mono; lia.
Qed.

Lemma total_hours_monotone_witness :
  (hoursOfMinutes (diffMinutes 3600000 0)
   <= hoursOfMinutes (diffMinutes 3660000 0))%Qc.
Proof.
  apply (total_hours_monotone 0 3600000 3660000); lia.
Defined.

(** * Deleting a shift *)

(** X21. Deleting a shift removes that shift and its assignments and leaves
    every other shift and its assignments as they were. *)
Theorem handleDelete_removes_shift i st :
  ~ In i (map shift_key (shifts (handleDelete i st))) /\
  assignedTo i (handleDelete i st) = [] /\
  (forall j, j <> i ->
     assignedTo j (handleDelete i st) = assignedTo j st /\
     (forall s, shift_key s = j ->
        (In s (shifts (handleDelete i st)) <-> In s (shifts st)))).
Proof.
  unfold handleDelete, assignedTo. cbn [shifts shift_assignments].
  split; [|split].
  - intros H. apply in_map_iff in H. destruct H as (s & Heq & Hs).
    apply filter_In in Hs. destruct Hs as [_ Hs].
    rewrite Heq, Nat.eqb_refl in Hs. discriminate.
  - induction (shift_assignments st) as [|[k e] xs IH]; [reflexivity|].
    cbn [filter fst]. destruct (Nat.eqb k i) eqn:E; cbn [negb filter fst];
      [exact IH | now rewrite E].
  - intros j Hj. split.
    + f_equal. induction (shift_assignments st) as [|[k e] xs IH]; [reflexivity|].
      cbn [filter fst]. destruct (Nat.eqb_spec k i) as [->|Hki]; cbn [negb filter fst].
      * destruct (Nat.eqb_spec i j); [congruence | exact IH].
      * destruct (Nat.eqb k j); [now rewrite IH | exact IH].
    + intros s Hs. rewrite filter_In, negb_true_iff, Nat.eqb_neq. 
      split; [tauto|]. intros H. split; [exact H | congruence].
Qed.

Lemma handleDelete_removes_shift_witness :
  assignedTo 2 (handleDelete 1 ex_store) = ["e1"%string].
Proof.
  destruct (handleDelete_removes_shift 1 ex_store) as (_ & _ & H).
  destruct (H 2%nat ltac:(discriminate)) as [-> _]. reflexivity.
Defined.
